(** * Voter-registration report publisher (netlify/functions/voter_registration.ts)

    A shallow embedding of the handler and of the platform functions it
    calls, followed by the properties of the natural-language specification.

    - Strings are sequences of UTF-16 code units, as in the language, so
      that [length] is the [.length] of the source.
    - What unary [+] makes of a cell is a binary64 value ([float64]),
      rounded as the language rounds.  A [number] is [NaN] or an integer:
      every number the handler goes on to use comes out of [Date.UTC] and
      [Math.floor], hence is one of the two.
    - A method call on [undefined] throws: fallible steps live in [result].
    - Outbound calls are answered by a [Network] oracle and recorded in a
      trace, one entry per [fetch]. *)

From Stdlib Require Import ZArith NArith List Lia Bool.
From Stdlib Require String Ascii.
Import ListNotations String.StringSyntax.
Delimit Scope string_scope with string.

Open Scope Z_scope.

(** ** Platform: strings *)

Module JS.

Definition jsstring := list N.

(** Source literals are ASCII; [lit] gives their code units. *)
Definition lit (s : String.string) : jsstring :=
  map Ascii.N_of_ascii (String.list_ascii_of_string s).
Arguments lit s%_string.

(** WhiteSpace and LineTerminator code points, the set [String.prototype.trim]
    and the string-to-number conversion strip. *)
Definition isStrWhiteSpaceChar (c : N) : bool :=
  ((c =? 0x9) || (c =? 0xA) || (c =? 0xB) || (c =? 0xC) || (c =? 0xD)
   || (c =? 0x20) || (c =? 0xA0) || (c =? 0x1680)
   || ((0x2000 <=? c) && (c <=? 0x200A))
   || (c =? 0x2028) || (c =? 0x2029) || (c =? 0x202F) || (c =? 0x205F)
   || (c =? 0x3000) || (c =? 0xFEFF))%N.

Fixpoint trimStart (s : jsstring) : jsstring :=
  match s with
  | [] => []
  | c :: r => if isStrWhiteSpaceChar c then trimStart r else s
  end.

Definition trimEnd (s : jsstring) : jsstring := rev (trimStart (rev s)).

Definition trim (s : jsstring) : jsstring := trimEnd (trimStart s).

(** [s.split(sep)] for a one-character separator: never empty, and the
    empty string splits into one empty field. *)
Fixpoint split (sep : N) (s : jsstring) : list jsstring :=
  match s with
  | [] => [[]]
  | c :: r =>
      if (c =? sep)%N then [] :: split sep r
      else match split sep r with
           | [] => [[c]]
           | h :: t => (c :: h) :: t
           end
  end.

(** [a.slice(n)] *)
Definition slice {A} (n : nat) (l : list A) : list A := skipn n l.

(** Truthiness of a string: non-empty. *)
Definition truthy (s : jsstring) : bool :=
  match s with [] => false | _ => true end.

(** ** Platform: errors *)

Inductive exn := TypeError | RangeError | NetworkError.

Inductive result (A : Type) : Type :=
| Ok (a : A)
| Throw (e : exn).
Arguments Ok {A} a.
Arguments Throw {A} e.

Definition bind {A B} (r : result A) (k : A -> result B) : result B :=
  match r with
  | Ok a => k a
  | Throw e => Throw e
  end.

Definition mapResult {A B} (f : A -> B) (r : result A) : result B :=
  match r with
  | Ok a => Ok (f a)
  | Throw e => Throw e
  end.

(** A method call on a possibly [undefined] receiver. *)
Definition receiver {A} (v : option A) : result A :=
  match v with
  | Some a => Ok a
  | None => Throw TypeError
  end.

(** ** Platform: numbers *)

Inductive number := NaN | Int (z : Z).

(** Relational operators: any comparison with [NaN] is false. *)
Definition lt (a b : number) : bool :=
  match a, b with
  | Int x, Int y => x <? y
  | _, _ => false
  end.

Definition gt (a b : number) : bool := lt b a.

Definition le (a b : number) : bool :=
  match a, b with
  | Int x, Int y => x <=? y
  | _, _ => false
  end.

Definition ge (a b : number) : bool := le b a.

Definition sub (a b : number) : number :=
  match a, b with
  | Int x, Int y => Int (x - y)
  | _, _ => NaN
  end.

Definition mul (a b : number) : number :=
  match a, b with
  | Int x, Int y => Int (x * y)
  | _, _ => NaN
  end.

Definition isDigit (c : N) : bool := ((48 <=? c) && (c <=? 57))%N.

Definition digitValue (c : N) : Z := Z.of_N (c - 48).

Fixpoint digitsValue (acc : Z) (s : jsstring) : option Z :=
  match s with
  | [] => Some acc
  | c :: r =>
      if isDigit c then digitsValue (10 * acc + digitValue c) r else None
  end.

(** ** Platform: binary64 values *)

(** What unary [+] returns: NaN, an infinity, or the double whose value
    is the rational [num / den], with [den > 0]. *)
Inductive float64 := fNaN | fInf (negative : bool) | fFin (num den : Z).

(** The integer nearest to [a / b], ties to the even one; [0 <= a],
    [0 < b]. *)
Definition roundHalfEven (a b : Z) : Z :=
  let q := a / b in
  let r := a mod b in
  if 2 * r <? b then q
  else if b <? 2 * r then q + 1
  else if Z.even q then q else q + 1.

(** [n / d] divided by [2 ^ e], as a fraction. *)
Definition scaled (n d e : Z) : Z * Z :=
  if 0 <=? e then (n, d * 2 ^ e) else (n * 2 ^ (- e), d).

(** The double nearest to [n / d], for [0 < n] and [0 < d]: a 53-bit
    significand [m] at the exponent [e] that puts the value between 2^52
    and 2^53, or at the least exponent -1074; the fraction is returned in
    lowest terms. *)
Definition nearestPositive (n d : Z) : float64 :=
  let e0 := Z.log2 n - Z.log2 d - 52 in
  let e1 := let (a, b) := scaled n d e0 in
            if a <? b * 2 ^ 52 then e0 - 1 else e0 in
  let e := Z.max e1 (-1074) in
  let m := let (a, b) := scaled n d e in roundHalfEven a b in
  if 0 <=? e then
    if 2 ^ 1024 <=? m * 2 ^ e then fInf false else fFin (m * 2 ^ e) 1
  else
    let g := Z.gcd m (2 ^ (- e)) in
    fFin (m / g) (2 ^ (- e) / g).

(** The double nearest to [n / d], for [0 < d]. *)
Definition ofRational (n d : Z) : float64 :=
  if n =? 0 then fFin 0 1
  else match nearestPositive (Z.abs n) d with
       | fFin a b => fFin (Z.sgn n * a) b
       | _ => fInf (n <? 0)
       end.

Definition fneg (x : float64) : float64 :=
  match x with
  | fNaN => fNaN
  | fInf s => fInf (negb s)
  | fFin n d => fFin (- n) d
  end.

(** [x - y] *)
Definition fsub (x y : float64) : float64 :=
  match x, y with
  | fNaN, _ | _, fNaN => fNaN
  | fInf a, fInf b => if Bool.eqb a b then fNaN else fInf a
  | fInf a, fFin _ _ => fInf a
  | fFin _ _, fInf b => fInf (negb b)
  | fFin a b, fFin c d => ofRational (a * d - c * b) (b * d)
  end.

(** ** Platform: numeric strings *)

(** The longest run of decimal digits at the head, and the rest. *)
Fixpoint spanDigits (s : jsstring) : jsstring * jsstring :=
  match s with
  | [] => ([], [])
  | c :: r =>
      if isDigit c then let (a, b) := spanDigits r in (c :: a, b)
      else ([], s)
  end.

Definition digitsOpt (s : jsstring) : option Z :=
  match s with
  | [] => None
  | _ => digitsValue 0 s
  end.

(** The exponent after [e]: digits with an optional sign. *)
Definition signedInteger (s : jsstring) : option Z :=
  match s with
  | [] => None
  | c :: r =>
      if (c =? 43)%N then digitsOpt r
      else if (c =? 45)%N then option_map Z.opp (digitsOpt r)
      else digitsOpt s
  end.

(** The value of a run of digits. *)
Definition mantissa (s : jsstring) : Z :=
  match digitsValue 0 s with
  | Some v => v
  | None => 0
  end.

(** The double of the decimal literal with integer digits [ip], fraction
    digits [fp] and exponent [ex].  Beyond 10^400 the value is past the
    largest double, below 10^-400 it is under half the least one. *)
Definition decimalValue (ip fp : jsstring) (ex : Z) : float64 :=
  let m := mantissa (ip ++ fp) in
  let e := ex - Z.of_nat (length fp) in
  if m =? 0 then fFin 0 1
  else if 400 <? e then fInf false
  else if e + Z.of_nat (length (ip ++ fp)) <? - 400 then fFin 0 1
  else if 0 <=? e then ofRational (m * 10 ^ e) 1
  else ofRational m (10 ^ (- e)).

Fixpoint sameText (a b : jsstring) : bool :=
  match a, b with
  | [], [] => true
  | x :: a', y :: b' => (x =? y)%N && sameText a' b'
  | _, _ => false
  end.

(** An unsigned decimal literal: [Infinity], or digits with an optional
    fraction and an optional exponent, at least one digit before the
    exponent.  Anything else is NaN. *)
Definition unsignedDecimal (s : jsstring) : float64 :=
  if sameText s (lit "Infinity") then fInf false
  else
    let (ip, rest) := spanDigits s in
    let (fp, rest) :=
      match rest with
      | c :: r => if (c =? 46)%N then spanDigits r else ([], rest)
      | [] => ([], [])
      end in
    match ip ++ fp with
    | [] => fNaN
    | _ =>
        match rest with
        | [] => decimalValue ip fp 0
        | c :: r =>
            if ((c =? 101) || (c =? 69))%N then
              match signedInteger r with
              | Some ex => decimalValue ip fp ex
              | None => fNaN
              end
            else fNaN
        end
    end.

(** The value of a digit in the given radix, letters in either case. *)
Definition radixDigit (radix : Z) (c : N) : option Z :=
  let v :=
    if isDigit c then Z.of_N (c - 48)
    else if ((97 <=? c) && (c <=? 102))%N then Z.of_N (c - 87)
    else if ((65 <=? c) && (c <=? 70))%N then Z.of_N (c - 55)
    else radix in
  if v <? radix then Some v else None.

Fixpoint radixValue (radix acc : Z) (s : jsstring) : option Z :=
  match s with
  | [] => Some acc
  | c :: r =>
      match radixDigit radix c with
      | Some v => radixValue radix (radix * acc + v) r
      | None => None
      end
  end.

Definition radixOf (c : N) : option Z :=
  if ((c =? 120) || (c =? 88))%N then Some 16
  else if ((c =? 111) || (c =? 79))%N then Some 8
  else if ((c =? 98) || (c =? 66))%N then Some 2
  else None.

(** A literal with the prefix [0x], [0o] or [0b]; it takes no sign. *)
Definition nonDecimal (s : jsstring) : float64 :=
  match s with
  | z :: p :: d :: ds =>
      if (z =? 48)%N then
        match radixOf p with
        | Some radix =>
            match radixValue radix 0 (d :: ds) with
            | Some v => ofRational v 1
            | None => fNaN
            end
        | None => fNaN
        end
      else fNaN
  | _ => fNaN
  end.

(** Unary [+] on a string.  White space is stripped; the empty string is
    0; a decimal literal with an optional sign, or a literal with a radix
    prefix, is the double nearest to its value; any other text is NaN. *)
Definition StringToNumber (s : jsstring) : float64 :=
  match trim s with
  | [] => fFin 0 1
  | c :: r =>
      if (c =? 43)%N then unsignedDecimal r
      else if (c =? 45)%N then fneg (unsignedDecimal r)
      else match unsignedDecimal (c :: r) with
           | fNaN => nonDecimal (c :: r)
           | v => v
           end
  end.

(** Unary [+] on a possibly [undefined] value. *)
Definition ToNumber (v : option jsstring) : float64 :=
  match v with
  | None => fNaN
  | Some s => StringToNumber s
  end.

(** ** Platform: number to string *)

Fixpoint digitsOf (fuel : nat) (n : Z) (acc : jsstring) : jsstring :=
  match fuel with
  | O => acc
  | S f =>
      let acc' := (48 + Z.to_N (n mod 10))%N :: acc in
      if n <? 10 then acc' else digitsOf f (n / 10) acc'
  end.

(** Decimal digits of a non-negative integer. *)
Definition decimal (n : Z) : jsstring :=
  digitsOf (S (Z.to_nat (Z.log2 n))) n [].

(** [String(n)], as a template literal applies it (integers below 10^21,
    which all numbers of the handler are). *)
Definition NumberToString (n : number) : jsstring :=
  match n with
  | NaN => lit "NaN"
  | Int z => if z <? 0 then 45%N :: decimal (- z) else decimal z
  end.

(** ** Platform: dates (ECMAScript, Date objects) *)

Definition msPerDay : Z := 86400000.

Definition Day (t : Z) : Z := t / msPerDay.

Definition TimeWithinDay (t : Z) : Z := t mod msPerDay.

Definition DaysInYear (y : Z) : Z :=
  if (y mod 4 =? 0) && (negb (y mod 100 =? 0) || (y mod 400 =? 0))
  then 366 else 365.

Definition DayFromYear (y : Z) : Z :=
  365 * (y - 1970) + (y - 1969) / 4 - (y - 1901) / 100 + (y - 1601) / 400.

(** The largest [y] with [DayFromYear y <= d]: the mean-year estimate is
    off by at most one (see [YearFromDay_spec]). *)
Definition YearFromDay (d : Z) : Z :=
  let y := 1970 + (400 * d) / 146097 in
  if d <? DayFromYear y then y - 1
  else if DayFromYear (y + 1) <=? d then y + 1
  else y.

Definition YearFromTime (t : Z) : Z := YearFromDay (Day t).

Definition InLeapYear (y : Z) : Z := if DaysInYear y =? 366 then 1 else 0.

(** Day number, within its year, of the first day of month [m] (0-based). *)
Definition monthStart (leap m : Z) : Z :=
  if m =? 0 then 0
  else if m =? 1 then 31
  else if m =? 2 then 59 + leap
  else if m =? 3 then 90 + leap
  else if m =? 4 then 120 + leap
  else if m =? 5 then 151 + leap
  else if m =? 6 then 181 + leap
  else if m =? 7 then 212 + leap
  else if m =? 8 then 243 + leap
  else if m =? 9 then 273 + leap
  else if m =? 10 then 304 + leap
  else if m =? 11 then 334 + leap
  else 365 + leap.

Definition DayWithinYear (t : Z) : Z := Day t - DayFromYear (YearFromTime t).

Definition MonthFromTime (t : Z) : Z :=
  let leap := InLeapYear (YearFromTime t) in
  let d := DayWithinYear t in
  if d <? 31 then 0
  else if d <? 59 + leap then 1
  else if d <? 90 + leap then 2
  else if d <? 120 + leap then 3
  else if d <? 151 + leap then 4
  else if d <? 181 + leap then 5
  else if d <? 212 + leap then 6
  else if d <? 243 + leap then 7
  else if d <? 273 + leap then 8
  else if d <? 304 + leap then 9
  else if d <? 334 + leap then 10
  else 11.

Definition DateFromTime (t : Z) : Z :=
  DayWithinYear t
  - monthStart (InLeapYear (YearFromTime t)) (MonthFromTime t) + 1.

(** Years 0 to 99, once truncated, mean 1900 to 1999. *)
Definition MakeFullYear (y : float64) : float64 :=
  match y with
  | fFin n d =>
      let t := Z.quot n d in
      if (0 <=? t) && (t <=? 99) then fFin (1900 + t) 1 else y
  | _ => y
  end.

(** [lo <= n / d <= hi] *)
Definition between (lo hi n d : Z) : bool :=
  (lo * d <=? n) && (n <=? hi * d).

(** Days from 1 January 1970 to 1 January of year [y], as the engine that
    runs the function (V8) counts them: the year is shifted by 399999 and
    the quotients are truncated, which is [DayFromYear] for every year
    from -399999 on. *)
Definition engineDayFromYear (y : Z) : Z :=
  let y1 := y + 399999 in
  let base := 1970 + 399999 in
  365 * y1 + Z.quot y1 4 - Z.quot y1 100 + Z.quot y1 400
  - (365 * base + Z.quot base 4 - Z.quot base 100 + Z.quot base 400).

(** The day number of the given day.  The engine answers NaN unless the
    year is within a million and the month within ten million of 0; the
    three operands are truncated, the month is carried over into the year
    ([ym], [mn]), and the days are counted on from the first of the
    month.  The sum is exact here; the engine's is rounded only where
    [TimeClip] answers NaN anyway. *)
Definition MakeDay (year month date : float64) : number :=
  match year, month, date with
  | fFin yn yd, fFin mn md, fFin dn dd =>
      if between (-1000000) 1000000 yn yd
         && between (-10000000) 10000000 mn md
      then
        let y := Z.quot yn yd in
        let m := Z.quot mn md in
        let ym := y + m / 12 in
        let mn := m mod 12 in
        Int (engineDayFromYear ym + monthStart (InLeapYear ym) mn
             + Z.quot dn dd - 1)
      else NaN
  | _, _, _ => NaN
  end.

Definition MakeDate (day : number) (time : Z) : number :=
  match day with
  | Int d => Int (d * msPerDay + time)
  | NaN => NaN
  end.

Definition maxTime : Z := 8640000000000000.

Definition TimeClip (t : number) : number :=
  match t with
  | Int v => if maxTime <? Z.abs v then NaN else Int v
  | NaN => NaN
  end.

(** [Date.UTC(year, month, date)] *)
Definition Date_UTC (year month date : float64) : number :=
  TimeClip (MakeDate (MakeDay (MakeFullYear year) month date) 0).

(** [Math.floor(x / 1000)] on an integer or [NaN]. *)
Definition floor_div_1000 (x : number) : number :=
  match x with
  | Int v => Int (v / 1000)
  | NaN => NaN
  end.

(** Left-padding of a non-negative integer with zeros, to [w] digits. *)
Definition pad (w : nat) (n : Z) : jsstring :=
  let ds := decimal n in
  repeat 48%N (w - length ds) ++ ds.

(** [new Date(t).toISOString()]: a [RangeError] on an invalid date. *)
Definition toISOString (t : number) : result jsstring :=
  match TimeClip t with
  | NaN => Throw RangeError
  | Int v =>
      let y := YearFromTime v in
      let year :=
        if (0 <=? y) && (y <=? 9999) then pad 4 y
        else (if y <? 0 then 45%N else 43%N) :: pad 6 (Z.abs y) in
      let ms := TimeWithinDay v in
      Ok (year ++ lit "-" ++ pad 2 (MonthFromTime v + 1) ++ lit "-"
          ++ pad 2 (DateFromTime v) ++ lit "T"
          ++ pad 2 (ms / 3600000) ++ lit ":"
          ++ pad 2 ((ms / 60000) mod 60) ++ lit ":"
          ++ pad 2 ((ms / 1000) mod 60) ++ lit "."
          ++ pad 3 (ms mod 1000) ++ lit "Z")
  end.

End JS.

Import JS.

Notation "x <- e ;; k" := (bind e (fun x => k))
  (at level 61, e at next level, right associativity).

Definition nl : jsstring := [10%N].
Definition tab : N := 9%N.
Definition slash : N := 47%N.
Definition space : N := 32%N.

Fixpoint eqb_str (a b : jsstring) : bool :=
  match a, b with
  | [], [] => true
  | x :: a', y :: b' => (x =? y)%N && eqb_str a' b'
  | _, _ => false
  end.

(** [a === b] on values that are strings or [undefined]. *)
Definition strictEq (a b : option jsstring) : bool :=
  match a, b with
  | None, None => true
  | Some x, Some y => eqb_str x y
  | _, _ => false
  end.

(** A value used as a string where the type checker was told it is one
    ([v!]): at run time [undefined] is spliced in as the text "undefined". *)
Definition coerce (v : option jsstring) : jsstring :=
  match v with
  | Some s => s
  | None => lit "undefined"
  end.

(** A loop whose body may throw. *)
Fixpoint forEach {S A} (body : S -> A -> result S) (l : list A) (s : S)
  : result S :=
  match l with
  | [] => Ok s
  | a :: r => s' <- body s a ;; forEach body r s'
  end.

(** ** The handler's environment *)

(** [process.env], by variable name. *)
Definition Env := String.string -> option jsstring.

(** The incoming event: [queryStringParameters] may be null. *)
Record Event := {
  queryStringParameters : option (String.string -> option jsstring)
}.

(** [event.queryStringParameters?.secret] *)
Definition querySecret (event : Event) : option jsstring :=
  match queryStringParameters event with
  | Some q => q "secret"%string
  | None => None
  end.

(** One [fetch]: the roster read, or the update of one message, whose
    body is the JSON object with the single field [content]. *)
Inductive NetCall :=
| Get (url : jsstring)
| Patch (url : jsstring) (content : jsstring).

(** The text of the reply to the k-th outbound call of the invocation, or
    the error the call throws.  The handler is deterministic, so every
    run is its run against some [Network]. *)
Definition Network := nat -> result jsstring.

Inductive Outcome :=
| Response (statusCode : Z) (body : jsstring)
| Uncaught (e : exn).

(** ** The program *)

Definition backlogDays : Z := 31.
Definition tsvSkipRows : nat := 2.
Definition daySec : Z := 24 * 60 * 60.

Definition parseDateStr (str : option jsstring) : result number :=
  s <- receiver str ;;
  let parts := split slash (trim s) in
  let dd := nth_error parts 0 in
  let mm := nth_error parts 1 in
  let yyyy := nth_error parts 2 in
  let dateMs :=
    Date_UTC (ToNumber yyyy) (fsub (ToNumber mm) (fFin 1 1)) (ToNumber dd) in
  Ok (floor_div_1000 dateMs).

Definition isFormattingChar (c : N) : bool :=
  ((c =? 95) || (c =? 126) || (c =? 42) || (c =? 96) || (c =? 92))%N.

Definition escapeRaw (s : jsstring) : jsstring :=
  flat_map (fun c => if isFormattingChar c then [92%N; c] else [c]) s.

(** [<t:${n}:D>] *)
Definition dateToken (n : number) : jsstring :=
  lit "<t:" ++ NumberToString n ++ lit ":D>".

Definition header (sheetLastUpdatedSec : number) : jsstring :=
  lit "Up-To-Date Voter Registration (as of " ++ dateToken sheetLastUpdatedSec
  ++ lit ")" ++ nl ++ nl
  ++ lit "These individuals are registered to vote in all elections, through the date listed. If your name is not currently listed, or ~~crossed out~~, you are not registered to vote."
  ++ nl.

(** The three-way choice of the line (source lines 79 to 85). *)
Definition displayLine (sheetLastUpdatedSec validSec expireSec : number)
  (name : jsstring) : jsstring :=
  if gt validSec sheetLastUpdatedSec then
    lit "*~~" ++ name ++ lit "~~ (begins " ++ dateToken validSec
    ++ lit ") (valid through " ++ dateToken expireSec ++ lit ")*"
  else if gt expireSec sheetLastUpdatedSec then
    lit "**" ++ name ++ lit "** (valid through " ++ dateToken expireSec
    ++ lit ")"
  else
    lit "~~" ++ name ++ lit "~~ (ended " ++ dateToken expireSec ++ lit ")".

(** The variables of the row loop. *)
Record LoopState := {
  fullMsgs : list jsstring;
  fullMsg : jsstring;
  numPlayers : Z
}.

(** Source lines 87 to 92. *)
Definition addLine (st : LoopState) (line : jsstring) : LoopState :=
  if (length (fullMsg st ++ line) <? 2000)%nat then
    {| fullMsgs := fullMsgs st;
       fullMsg := fullMsg st ++ nl ++ line;
       numPlayers := numPlayers st |}
  else
    {| fullMsgs := fullMsgs st ++ [fullMsg st];
       fullMsg := trim line;
       numPlayers := numPlayers st |}.

Definition countPlayer (st : LoopState) : LoopState :=
  {| fullMsgs := fullMsgs st;
     fullMsg := fullMsg st;
     numPlayers := numPlayers st + 1 |}.

(** The backlog test of source line 74. *)
Definition tooOld (sheetLastUpdatedSec expireSec : number) : bool :=
  lt expireSec (sub sheetLastUpdatedSec (Int (backlogDays * daySec))).

(** One iteration of the row loop (source lines 65 to 92). *)
Definition processRow (sheetLastUpdatedSec : number) (st : LoopState)
  (tsvLine : jsstring) : result LoopState :=
  if negb (truthy (trim tsvLine)) then Ok st
  else
    let cols := split tab tsvLine in
    mcName <- receiver (nth_error cols 0) ;;
    let mcName := trim mcName in
    tag <- receiver (nth_error cols 1) ;;
    let tag := trim tag in
    validSec <- parseDateStr (nth_error cols 2) ;;
    expireSec <- parseDateStr (nth_error cols 3) ;;
    let st := countPlayer st in
    if tooOld sheetLastUpdatedSec expireSec then Ok st
    else
      let name := escapeRaw mcName in
      Ok (addLine st (displayLine sheetLastUpdatedSec validSec expireSec name)).

(** Source lines 60 to 93: the loop over the rows after the two skipped
    ones, started on the header block. *)
Definition startState (sheetLastUpdatedSec : number) : LoopState :=
  {| fullMsgs := [];
     fullMsg := header sheetLastUpdatedSec;
     numPlayers := 0 |}.

Definition rowLoop (sheetLastUpdatedSec : number) (rows : list jsstring)
  : result LoopState :=
  forEach (processRow sheetLastUpdatedSec) rows (startState sheetLastUpdatedSec).

(** Source lines 57 to 94: the header date, the row loop, the last push. *)
Definition parsePhase (tsv : jsstring) : result (number * LoopState) :=
  let rows := split 10%N tsv in
  row1 <- receiver (nth_error rows 1) ;;
  sheetLastUpdatedSec <- parseDateStr (nth_error (split tab row1) 8) ;;
  st <- rowLoop sheetLastUpdatedSec (slice tsvSkipRows rows) ;;
  Ok (sheetLastUpdatedSec,
      {| fullMsgs := fullMsgs st ++ [fullMsg st];
         fullMsg := fullMsg st;
         numPlayers := numPlayers st |}).

(** [fullMsgs.shift() ?? "-"] : the content, and what is left of the queue. *)
Definition shiftOr (queue : list jsstring) : jsstring * list jsstring :=
  match queue with
  | b :: rest => (b, rest)
  | [] => (lit "-", [])
  end.

(** Source lines 97 to 108.  [sent] counts the calls already made. *)
Fixpoint publish (net : Network) (webhook : jsstring) (ids : list jsstring)
  (queue : list jsstring) (whRes : jsstring) (sent : nat)
  : list NetCall * result jsstring :=
  match ids with
  | [] => ([], Ok whRes)
  | msgId :: rest =>
      let (content, queue') := shiftOr queue in
      let call := Patch (webhook ++ lit "/messages/" ++ msgId) content in
      match net sent with
      | Throw e => ([call], Throw e)
      | Ok text =>
          let (calls, r) :=
            publish net webhook rest queue' (whRes ++ text ++ nl) (S sent) in
          (call :: calls, r)
      end
  end.

Definition requiredEnv : list String.string :=
  ["VOTER_REGISTRATION_TSV_URL"; "VOTER_REGISTRATION_WEBHOOK_URL";
   "VOTER_REGISTRATION_MSG_IDS"]%string.

Definition falsy (v : option jsstring) : bool :=
  match v with
  | Some s => negb (truthy s)
  | None => true
  end.

(** Source lines 42 to 53: the first missing variable, if any. *)
Fixpoint checkEnv (env : Env) (names : list String.string)
  : option String.string :=
  match names with
  | [] => None
  | envName :: rest =>
      if falsy (env envName) then Some envName else checkEnv env rest
  end.

Definition successBody (sheetLastUpdatedSec : number) (players : Z)
  : result jsstring :=
  iso <- toISOString (mul (Int 1000) sheetLastUpdatedSec) ;;
  Ok (lit "Last updated: " ++ iso ++ nl
      ++ lit "Players: " ++ NumberToString (Int players)).

(** What is left of the handler once the roster text has arrived. *)
Definition report (env : Env) (net : Network) (tsv : jsstring)
  : list NetCall * Outcome :=
  match parsePhase tsv with
  | Throw e => ([], Uncaught e)
  | Ok (sheetLastUpdatedSec, st) =>
      match receiver (env "VOTER_REGISTRATION_MSG_IDS"%string) with
      | Throw e => ([], Uncaught e)
      | Ok ids =>
          let (calls, r) :=
            publish net (coerce (env "VOTER_REGISTRATION_WEBHOOK_URL"%string))
              (split space ids) (fullMsgs st) [] 1 in
          match r with
          | Throw e => (calls, Uncaught e)
          | Ok _ =>
              match successBody sheetLastUpdatedSec (numPlayers st) with
              | Throw e => (calls, Uncaught e)
              | Ok body => (calls, Response 200 body)
              end
          end
      end
  end.

Definition handler (event : Event) (env : Env) (net : Network)
  : list NetCall * Outcome :=
  if negb (strictEq (querySecret event) (env "VOTER_REGISTRATION_SECRET"%string))
  then ([], Response 400 (lit "Invalid secret"))
  else
    match checkEnv env requiredEnv with
    | Some envName =>
        ([], Response 500
               (lit "Missing environment variable "
                ++ map Ascii.N_of_ascii (String.list_ascii_of_string envName)))
    | None =>
        let roster := Get (coerce (env "VOTER_REGISTRATION_TSV_URL"%string)) in
        match net O with
        | Throw e => ([roster], Uncaught e)
        | Ok tsv =>
            let (calls, out) := report env net tsv in
            (roster :: calls, out)
        end
    end.

(** ** Notions of the specification *)

(** *** Calendar dates *)

(** Days in month [m] (1 to 12) of year [y]. *)
Definition DaysInMonth (y m : Z) : Z :=
  monthStart (InLeapYear y) m - monthStart (InLeapYear y) (m - 1).

Definition validDate (y m d : Z) : bool :=
  (1 <=? m) && (m <=? 12) && (1 <=? d) && (d <=? DaysInMonth y m).

(** Days from 1 January 1970 to the date. *)
Definition dayNumber (y m d : Z) : Z :=
  DayFromYear y + monthStart (InLeapYear y) (m - 1) + d - 1.

Definition digitsNumber (s : jsstring) : Z :=
  fold_left (fun acc c => 10 * acc + digitValue c) s 0.

(** A valid DD/MM/YYYY string: two digits, a slash, two digits, a slash,
    four digits, naming a day that exists; read as (year, month, day). *)
Definition readDateStr (s : jsstring) : option (Z * Z * Z) :=
  match s with
  | [d1; d2; s1; m1; m2; s2; y1; y2; y3; y4] =>
      if forallb isDigit [d1; d2; m1; m2; y1; y2; y3; y4]
         && (s1 =? slash)%N && (s2 =? slash)%N
      then
        let y := digitsNumber [y1; y2; y3; y4] in
        let m := digitsNumber [m1; m2] in
        let d := digitsNumber [d1; d2] in
        if validDate y m d then Some (y, m, d) else None
      else None
  | _ => None
  end.

(** Parsing [s] gives a timestamp in seconds which, read back as a UTC
    date, is midnight of day [d] of month [m] of year [y]. *)
Definition roundTrips (s : jsstring) (y m d : Z) : Prop :=
  exists t,
    parseDateStr (Some s) = Ok (Int t)
    /\ YearFromTime (1000 * t) = y
    /\ MonthFromTime (1000 * t) + 1 = m
    /\ DateFromTime (1000 * t) = d
    /\ TimeWithinDay (1000 * t) = 0.

(** *** Registration states *)

Inductive Status := Upcoming | Active | Expired.

(** The states in the words of the specification: Upcoming when
    validFrom > asOf, Active when validFrom <= asOf and validUntil > asOf,
    Expired otherwise. *)
Definition classifySpec (asOf validFrom validUntil : number) : Status :=
  if gt validFrom asOf then Upcoming
  else if le validFrom asOf && gt validUntil asOf then Active
  else Expired.

(** The states by priority alone: Upcoming when validFrom > asOf, else
    Active when validUntil > asOf, else Expired. *)
Definition classify (asOf validFrom validUntil : number) : Status :=
  if gt validFrom asOf then Upcoming
  else if gt validUntil asOf then Active
  else Expired.

(** The rendering of each state. *)
Definition renderStatus (s : Status) (name : jsstring)
  (validFrom validUntil : number) : jsstring :=
  match s with
  | Upcoming =>
      lit "*~~" ++ name ++ lit "~~ (begins " ++ dateToken validFrom
      ++ lit ") (valid through " ++ dateToken validUntil ++ lit ")*"
  | Active =>
      lit "**" ++ name ++ lit "** (valid through " ++ dateToken validUntil
      ++ lit ")"
  | Expired =>
      lit "~~" ++ name ++ lit "~~ (ended " ++ dateToken validUntil ++ lit ")"
  end.

(** *** Publication *)

(** One update per message id, in order: the i-th carries the i-th block,
    or the placeholder once the blocks have run out. *)
Definition expectedCalls (webhook : jsstring) (ids blocks : list jsstring)
  : list NetCall :=
  map (fun p : nat * jsstring =>
         Patch (webhook ++ lit "/messages/" ++ snd p)
               (nth (fst p) blocks (lit "-")))
      (combine (seq 0 (length ids)) ids).

(** Every outbound call is answered. *)
Definition answering (net : Network) : Prop :=
  forall k, exists text, net k = Ok text.

(** *** Shape of the roster text *)

Definition blank (tsvLine : jsstring) : bool := negb (truthy (trim tsvLine)).

(** At least two rows, at least nine columns in row 1, at least four
    fields in every later row that is not blank. *)
Definition wellFormedSheet (tsv : jsstring) : bool :=
  let rows := split 10%N tsv in
  (2 <=? length rows)%nat
  && (9 <=? length (split tab (nth 1 rows [])))%nat
  && forallb (fun r => blank r || (4 <=? length (split tab r))%nat)
       (slice tsvSkipRows rows).

(** *** Timestamps *)

(** A time value as [Date.UTC] returns it: [NaN], or within the range of
    dates. *)
Definition clipped (n : number) : Prop :=
  match n with
  | NaN => True
  | Int z => Z.abs z <= maxTime
  end.

(** The same loop variables with [k] more players counted. *)
Definition bump (k : Z) (st : LoopState) : LoopState :=
  {| fullMsgs := fullMsgs st;
     fullMsg := fullMsg st;
     numPlayers := numPlayers st + k |}.

(** The entrant name as the row loop renders it. *)
Definition shownName (tsvLine : jsstring) : jsstring :=
  escapeRaw (trim (hd [] (split tab tsvLine))).

(** The name and the two timestamps of a row that is an entrant: not
    blank, and with its four fields present. *)
Definition entrant (tsvLine : jsstring)
  : option (jsstring * number * number) :=
  if blank tsvLine then None
  else
    match nth_error (split tab tsvLine) 1,
          parseDateStr (nth_error (split tab tsvLine) 2),
          parseDateStr (nth_error (split tab tsvLine) 3) with
    | Some _, Ok validSec, Ok expireSec =>
        Some (shownName tsvLine, validSec, expireSec)
    | _, _, _ => None
    end.

(** The line a row puts into the report, if any. *)
Definition shownLine (asOf : number) (tsvLine : jsstring) : list jsstring :=
  match entrant tsvLine with
  | Some (name, validSec, expireSec) =>
      if tooOld asOf expireSec then []
      else [displayLine asOf validSec expireSec name]
  | None => []
  end.

Definition noNewline (s : jsstring) : bool :=
  forallb (fun c => negb (c =? 10)%N) s.

(** *** Message blocks *)

(** A block that is the line of one row of the sheet and nothing else: a
    single line of text. *)
Definition loneLine (asOf : number) (rows : list jsstring) (b : jsstring)
  : Prop :=
  noNewline b = true
  /\ exists tsvLine, In tsvLine rows /\ shownLine asOf tsvLine = [b].

(** The bound as the specification words it: strictly below 2000. *)
Definition underLimit (asOf : number) (rows : list jsstring) (b : jsstring)
  : Prop :=
  (length b < 2000)%nat \/ loneLine asOf rows b.

(** The bound the packer keeps: at most 2000. *)
Definition withinLimit (asOf : number) (rows : list jsstring) (b : jsstring)
  : Prop :=
  (length b <= 2000)%nat \/ loneLine asOf rows b.

(** What the packer keeps true of the blocks pushed and of the running
    block. *)
Definition packed (asOf : number) (rows : list jsstring) (st : LoopState)
  : Prop :=
  Forall (withinLimit asOf rows) (fullMsgs st)
  /\ withinLimit asOf rows (fullMsg st).

(** ** Sample data *)

Fixpoint joinWith (sep : jsstring) (l : list jsstring) : jsstring :=
  match l with
  | [] => []
  | [a] => a
  | a :: r => a ++ sep ++ joinWith sep r
  end.

Definition sampleEnv (secret : option jsstring) : Env :=
  fun name =>
    if String.eqb name "VOTER_REGISTRATION_TSV_URL"
    then Some (lit "https://sheet/tsv")
    else if String.eqb name "VOTER_REGISTRATION_WEBHOOK_URL"
    then Some (lit "https://hook")
    else if String.eqb name "VOTER_REGISTRATION_MSG_IDS"
    then Some (lit "11 22 33")
    else if String.eqb name "VOTER_REGISTRATION_SECRET" then secret
    else None.

(** A request with [?secret=s], or without the parameter. *)
Definition withSecret (s : option jsstring) : Event :=
  {| queryStringParameters :=
       Some (fun name => if String.eqb name "secret" then s else None) |}.

Definition row (cells : list jsstring) : jsstring := joinWith [tab] cells.

(** A sheet last updated on 1 June 2024, with the given entrant rows. *)
Definition sampleSheet (rows : list jsstring) : jsstring :=
  joinWith nl
    (lit "Voter roll"
     :: row [lit "Name"; lit "Tag"; lit "Valid"; lit "Expires"; []; []; [];
             lit "Updated"; lit "01/06/2024"]
     :: rows).

Definition alice : jsstring :=
  row [lit "Alice"; lit "A"; lit "01/05/2024"; lit "01/07/2024"].
Definition bob : jsstring :=
  row [lit "Bob"; lit "B"; lit "01/07/2024"; lit "01/08/2024"].
Definition carl : jsstring :=
  row [lit "Carl"; lit "C"; lit "01/01/2024"; lit "01/02/2024"].

(** A network that hands out [tsv] and acknowledges every update. *)
Definition replying (tsv : jsstring) : Network :=
  fun k => match k with O => Ok tsv | _ => Ok (lit "ok") end.

(** One active entrant whose name is long enough for header and line to
    come to 1999 characters together. *)
Definition tightSheet : jsstring :=
  sampleSheet
    [row [repeat 97%N 1732; lit "A"; lit "01/05/2024"; lit "01/07/2024"]].

Definition eve : jsstring :=
  row [lit "Eve"; lit "E"; lit "soon"; lit "01/07/2024"].

(** A sheet whose only entrant row stops after the name. *)
Definition shortRowSheet : jsstring := sampleSheet [lit "Zed"].

Definition fiveBlocks : list jsstring :=
  [lit "one"; lit "two"; lit "three"; lit "four"; lit "five"].

(** A request whose [queryStringParameters] is null. *)
Definition bareRequest : Event := {| queryStringParameters := None |}.

(** ** Further notions *)

(** Removal of the escaping backslashes: a backslash is dropped and the
    character after it kept. *)
Fixpoint unescapeRaw (s : jsstring) : jsstring :=
  match s with
  | [] => []
  | c :: r =>
      if (c =? 92)%N then
        match r with
        | [] => [c]
        | d :: r' => d :: unescapeRaw r'
        end
      else c :: unescapeRaw r
  end.

(** Calendar order on (year, month, day). *)
Definition dateBefore (a b : Z * Z * Z) : Prop :=
  let '(y1, m1, d1) := a in
  let '(y2, m2, d2) := b in
  y1 < y2 \/ (y1 = y2 /\ (m1 < m2 \/ (m1 = m2 /\ d1 < d2))).

(** The rows that count as players. *)
Definition playerRows (rows : list jsstring) : list jsstring :=
  filter (fun r => negb (blank r)) rows.

(** The gates of the handler are passed: the secret matches and the three
    checked variables are set. *)
Definition passesGates (event : Event) (env : Env) : Prop :=
  querySecret event = env "VOTER_REGISTRATION_SECRET"%string
  /\ checkEnv env requiredEnv = None.

Definition envText (name : String.string) : jsstring :=
  map Ascii.N_of_ascii (String.list_ascii_of_string name).

(** The sample environment with the webhook URL set to the empty string. *)
Definition noWebhookEnv : Env :=
  fun name =>
    if String.eqb name "VOTER_REGISTRATION_WEBHOOK_URL" then Some []
    else sampleEnv (Some (lit "s3")) name.

(** A network whose call number 2, the second update, fails. *)
Definition secondUpdateFails : Network :=
  fun k => if (k =? 2)%nat then Throw NetworkError else Ok (lit "ok").

(** The sample sheet with an unreadable date in its last-updated cell. *)
Definition undatedSheet (rows : list jsstring) : jsstring :=
  joinWith nl
    (lit "Voter roll"
     :: row [lit "Name"; lit "Tag"; lit "Valid"; lit "Expires"; []; []; [];
             lit "Updated"; lit "yesterday"]
     :: rows).

Definition samplePasses : passesGates (withSecret (Some (lit "s3")))
                              (sampleEnv (Some (lit "s3"))) :=
  conj eq_refl eq_refl.

(** A row whose end date cannot be read. *)
Definition openEnded : jsstring :=
  row [lit "Finn"; lit "F"; lit "01/05/2024"; lit "never"].

(** Number of space characters in a string. *)
Definition spaces (s : jsstring) : nat :=
  length (filter (fun c => (c =? space)%N) s).

(** The network that answers every call with the same text. *)
Definition echoing (tsv : jsstring) : Network := fun _ => Ok tsv.

(** A sheet with an entrant between two others whose name alone is over
    the limit. *)
Definition longNameSheet : jsstring :=
  sampleSheet
    [alice;
     row [repeat 97%N 2100; lit "L"; lit "01/05/2024"; lit "01/07/2024"];
     bob].

(** * Properties *)

(** ** Calendar arithmetic *)

Lemma DayFromYear_succ y : DayFromYear (y + 1) = DayFromYear y + DaysInYear y.
Proof.
  unfold DayFromYear, DaysInYear.
  destruct (y mod 4 =? 0) eqn:E4; destruct (y mod 100 =? 0) eqn:E100;
    destruct (y mod 400 =? 0) eqn:E400; cbn [andb orb negb];
    rewrite ?Z.eqb_eq, ?Z.eqb_neq in *;
    Z.to_euclidean_division_equations; lia.
Qed.

Lemma DayFromYear_mono y1 y2 : y1 <= y2 -> DayFromYear y1 + 365 * (y2 - y1) <= DayFromYear y2.
Proof.
  unfold DayFromYear. intros. Z.to_euclidean_division_equations; lia.
Qed.

Lemma YearFromDay_spec d :
  DayFromYear (YearFromDay d) <= d < DayFromYear (YearFromDay d + 1).
Proof.
  unfold YearFromDay.
  set (y := 1970 + 400 * d / 146097).
  assert (Hy : 146097 * (y - 1970) <= 400 * d < 146097 * (y - 1970) + 146097).
  { unfold y. Z.to_euclidean_division_equations; lia. }
  clearbody y.
  destruct (d <? DayFromYear y) eqn:E1; [|destruct (DayFromYear (y + 1) <=? d) eqn:E2];
    rewrite ?Z.ltb_lt, ?Z.ltb_ge, ?Z.leb_le, ?Z.leb_gt in *.
  - replace (y - 1 + 1) with y by lia. split; [|lia].
    revert E1 Hy. unfold DayFromYear. Z.to_euclidean_division_equations; lia.
  - split; [lia|]. revert E2 Hy. unfold DayFromYear. Z.to_euclidean_division_equations; lia.
  - lia.
Qed.

Lemma YearFromDay_unique y d :
  DayFromYear y <= d < DayFromYear (y + 1) -> YearFromDay d = y.
Proof.
  intros H. pose proof (YearFromDay_spec d) as S.
  destruct (Z.lt_trichotomy (YearFromDay d) y) as [L|[E|G]]; [exfalso| exact E | exfalso].
  - pose proof (DayFromYear_mono (YearFromDay d + 1) y). lia.
  - pose proof (DayFromYear_mono (y + 1) (YearFromDay d)). lia.
Qed.




Lemma InLeapYear_cases y :
  (InLeapYear y = 0 /\ DaysInYear y = 365) \/ (InLeapYear y = 1 /\ DaysInYear y = 366).
Proof.
  unfold InLeapYear, DaysInYear.
  destruct ((y mod 4 =? 0) && (negb (y mod 100 =? 0) || (y mod 400 =? 0))); cbn; auto.
Qed.

Lemma validDate_within y m d :
  validDate y m d = true ->
  1 <= m <= 12 /\
  monthStart (InLeapYear y) (m - 1) <= dayNumber y m d - DayFromYear y
    < monthStart (InLeapYear y) m /\
  monthStart (InLeapYear y) m <= DaysInYear y.
Proof.
  unfold validDate, DaysInMonth, dayNumber. intros H.
  rewrite !andb_true_iff, !Z.leb_le in H. destruct H as [[[H1 H2] H3] H4].
  destruct (InLeapYear_cases y) as [[E1 E2]|[E1 E2]]; rewrite ?E1, ?E2 in *;
  assert (M : m = 1 \/ m = 2 \/ m = 3 \/ m = 4 \/ m = 5 \/ m = 6 \/ m = 7 \/ m = 8
              \/ m = 9 \/ m = 10 \/ m = 11 \/ m = 12) by lia;
  repeat (destruct M as [->|M]); try subst m; cbn in *; lia.
Qed.

Lemma Day_of_days n : Day (n * msPerDay) = n.
Proof. unfold Day, msPerDay. apply Z.div_mul. lia. Qed.

Lemma civil_of_dayNumber y m d :
  validDate y m d = true ->
  let t := dayNumber y m d * msPerDay in
  YearFromTime t = y /\ MonthFromTime t = m - 1 /\ DateFromTime t = d
  /\ TimeWithinDay t = 0.
Proof.
  intros V t. pose proof (validDate_within y m d V) as (Hm & Hd & Hy).
  assert (Y : YearFromTime t = y).
  { unfold YearFromTime, t. rewrite Day_of_days. apply YearFromDay_unique.
    rewrite DayFromYear_succ.
    assert (0 <= monthStart (InLeapYear y) (m - 1)).
    { destruct (InLeapYear_cases y) as [[-> _]|[-> _]];
      assert (M : m = 1 \/ m = 2 \/ m = 3 \/ m = 4 \/ m = 5 \/ m = 6 \/ m = 7 \/ m = 8
              \/ m = 9 \/ m = 10 \/ m = 11 \/ m = 12) by lia;
      repeat (destruct M as [->|M]); try subst m; cbn; lia. }
    lia. }
  assert (W : DayWithinYear t = dayNumber y m d - DayFromYear y).
  { unfold DayWithinYear. rewrite Y. unfold t. now rewrite Day_of_days. }
  assert (Mo : MonthFromTime t = m - 1).
  { unfold MonthFromTime. rewrite Y, W.
    destruct (InLeapYear_cases y) as [[E _]|[E _]]; rewrite E in *;
    assert (M : m = 1 \/ m = 2 \/ m = 3 \/ m = 4 \/ m = 5 \/ m = 6 \/ m = 7 \/ m = 8
              \/ m = 9 \/ m = 10 \/ m = 11 \/ m = 12) by lia;
    repeat (destruct M as [->|M]); try subst m; cbn in Hd |- *;
    repeat match goal with
    | |- context [?a <? ?b] => destruct (Z.ltb_spec a b); try lia
    end. }
  repeat split; auto.
  - unfold DateFromTime. rewrite Y, W, Mo. unfold dayNumber. lia.
  - unfold TimeWithinDay, t. apply Z.mod_mul. unfold msPerDay; lia.
Qed.



(** ** Reading a date string *)

Lemma isDigit_range c : isDigit c = true -> (48 <= c <= 57)%N.
Proof. unfold isDigit. rewrite andb_true_iff, !N.leb_le. tauto. Qed.

Lemma isDigit_cases c :
  isDigit c = true ->
  In c [48; 49; 50; 51; 52; 53; 54; 55; 56; 57]%N.
Proof. intros H. apply isDigit_range in H. cbn. lia. Qed.

Lemma digit_not_space c : isDigit c = true -> isStrWhiteSpaceChar c = false.
Proof.
  intros H. apply isDigit_cases in H. cbn in H.
  repeat (destruct H as [<-|H]; [reflexivity|]). contradiction.
Qed.

Lemma digit_not_sign c :
  isDigit c = true -> (c =? 43)%N = false /\ (c =? 45)%N = false /\ (c =? slash)%N = false.
Proof.
  intros H. apply isDigit_range in H. unfold slash. rewrite !N.eqb_neq. lia.
Qed.

Lemma trim_fixed s : trimStart s = s -> trimStart (rev s) = rev s -> trim s = s.
Proof.
  intros H1 H2. unfold trim, trimEnd. rewrite H1, H2. apply rev_involutive.
Qed.

Lemma trimStart_digits s : forallb isDigit s = true -> trimStart s = s.
Proof.
  destruct s as [|c r]; cbn; [reflexivity|].
  rewrite andb_true_iff. intros [H _]. now rewrite (digit_not_space c H).
Qed.

Lemma forallb_rev {A} (p : A -> bool) l : forallb p (rev l) = forallb p l.
Proof.
  induction l as [|a l IH]; cbn; [reflexivity|].
  rewrite forallb_app, IH. cbn. rewrite andb_true_r. apply andb_comm.
Qed.

Lemma trim_digits s : forallb isDigit s = true -> trim s = s.
Proof.
  intros H. apply trim_fixed; apply trimStart_digits; [|rewrite forallb_rev]; exact H.
Qed.

Lemma digitsValue_digits s : forall acc,
  forallb isDigit s = true ->
  digitsValue acc s = Some (fold_left (fun a c => 10 * a + digitValue c) s acc).
Proof.
  induction s as [|c r IH]; cbn; intros acc H; [reflexivity|].
  apply andb_true_iff in H as [Hc Hr]. rewrite Hc. now apply IH.
Qed.

Lemma digits_fold_nonneg s : forall acc,
  0 <= acc -> forallb isDigit s = true ->
  0 <= fold_left (fun a c => 10 * a + digitValue c) s acc.
Proof.
  induction s as [|c r IH]; cbn [fold_left forallb]; intros acc A H; [exact A|].
  apply andb_true_iff in H as [Hc Hr]. apply IH; [|exact Hr].
  apply isDigit_range in Hc. unfold digitValue. lia.
Qed.

Lemma digitsNumber_nonneg s : forallb isDigit s = true -> 0 <= digitsNumber s.
Proof. intros H. apply digits_fold_nonneg; [lia | exact H]. Qed.

Lemma spanDigits_digits s : forallb isDigit s = true -> spanDigits s = (s, []).
Proof.
  induction s as [|c r IH]; cbn [spanDigits forallb]; [reflexivity|].
  rewrite andb_true_iff. intros [-> H]. now rewrite (IH H).
Qed.

Lemma mantissa_digits s : forallb isDigit s = true -> mantissa s = digitsNumber s.
Proof. intros H. unfold mantissa. now rewrite (digitsValue_digits s 0 H). Qed.

(** The integers from -1 to 9999 are doubles. *)
Lemma small_integers_checked :
  forallb (fun k => match ofRational (Z.of_nat k - 1) 1 with
                    | fFin a b => (a =? Z.of_nat k - 1) && (b =? 1)
                    | _ => false
                    end) (seq 0 (Z.to_nat 10001)) = true.
Proof. vm_compute. reflexivity. Qed.

Lemma ofRational_small n : -1 <= n <= 9999 -> ofRational n 1 = fFin n 1.
Proof.
  intros H. pose proof small_integers_checked as C.
  rewrite forallb_forall in C.
  specialize (C (Z.to_nat (n + 1))). rewrite in_seq in C.
  specialize (C ltac:(lia)).
  replace (Z.of_nat (Z.to_nat (n + 1)) - 1) with n in C by lia.
  destruct (ofRational n 1) as [| |a b]; try discriminate.
  apply andb_true_iff in C as [A B]. apply Z.eqb_eq in A, B. now subst.
Qed.

Lemma fsub_one m : 0 <= m <= 9999 -> fsub (fFin m 1) (fFin 1 1) = fFin (m - 1) 1.
Proof.
  intros H. cbn [fsub].
  replace (m * 1 - 1 * 1) with (m - 1) by lia. change (1 * 1) with 1.
  apply ofRational_small. lia.
Qed.

Lemma StringToNumber_digits s :
  s <> [] -> forallb isDigit s = true -> digitsNumber s <= 9999 ->
  StringToNumber s = fFin (digitsNumber s) 1.
Proof.
  intros Hne H B. pose proof (digitsNumber_nonneg s H) as P.
  unfold StringToNumber. rewrite (trim_digits s H).
  destruct s as [|c r]; [contradiction|].
  assert (Hc : isDigit c = true) by (cbn in H; apply andb_true_iff in H; tauto).
  destruct (digit_not_sign c Hc) as (-> & -> & _).
  assert (U : unsignedDecimal (c :: r) = fFin (digitsNumber (c :: r)) 1).
  { unfold unsignedDecimal.
    assert (I : sameText (c :: r) (lit "Infinity") = false).
    { cbn. apply andb_false_iff. left. apply N.eqb_neq.
      apply isDigit_range in Hc. lia. }
    rewrite I, (spanDigits_digits _ H). cbn [app].
    unfold decimalValue. rewrite app_nil_r, (mantissa_digits _ H).
    cbn [length]. rewrite Z.sub_0_r.
    destruct (Z.eqb_spec (digitsNumber (c :: r)) 0) as [->|NZ]; [reflexivity|].
    change (400 <? 0) with false. cbn match.
    destruct (Z.ltb_spec (0 + Z.of_nat (S (length r))) (-400)); [lia|].
    change (0 <=? 0) with true. cbn match.
    rewrite Z.pow_0_r, Z.mul_1_r. apply ofRational_small. lia. }
  now rewrite U.
Qed.

Lemma split_digits sep s :
  forallb (fun c => negb (c =? sep)%N) s = true -> split sep s = [s].
Proof.
  induction s as [|c r IH]; cbn; [reflexivity|].
  rewrite andb_true_iff, negb_true_iff. intros [-> H]. now rewrite (IH H).
Qed.

Lemma split_field sep a b :
  forallb (fun c => negb (c =? sep)%N) a = true ->
  split sep (a ++ sep :: b) = a :: split sep b.
Proof.
  induction a as [|c r IH]; cbn.
  - intros _. now rewrite N.eqb_refl.
  - rewrite andb_true_iff, negb_true_iff. intros [-> H]. now rewrite (IH H).
Qed.

Lemma digits_no_slash s :
  forallb isDigit s = true -> forallb (fun c => negb (c =? slash)%N) s = true.
Proof.
  rewrite !forallb_forall. intros H c Hc.
  destruct (digit_not_sign c (H c Hc)) as (_ & _ & ->). reflexivity.
Qed.

Lemma parseDateStr_digits dd mm yyyy :
  dd <> [] -> mm <> [] -> yyyy <> [] ->
  forallb isDigit dd = true -> forallb isDigit mm = true ->
  forallb isDigit yyyy = true ->
  digitsNumber dd <= 9999 -> digitsNumber mm <= 9999 ->
  digitsNumber yyyy <= 9999 ->
  parseDateStr (Some (dd ++ slash :: mm ++ slash :: yyyy))
  = Ok (floor_div_1000
          (Date_UTC (fFin (digitsNumber yyyy) 1) (fFin (digitsNumber mm - 1) 1)
             (fFin (digitsNumber dd) 1))).
Proof.
  intros Nd Nm Ny Hd Hm Hy Bd Bm By. unfold parseDateStr. cbn [receiver bind].
  assert (T : trim (dd ++ slash :: mm ++ slash :: yyyy) = dd ++ slash :: mm ++ slash :: yyyy).
  { apply trim_fixed.
    - destruct dd as [|c r]; [contradiction|]. cbn in *.
      apply andb_true_iff in Hd as [Hc _]. now rewrite (digit_not_space c Hc).
    - rewrite rev_app_distr. cbn [rev]. rewrite rev_app_distr. cbn [rev].
      rewrite <- !app_assoc.
      assert (R : forallb isDigit (rev yyyy) = true) by now rewrite forallb_rev.
      destruct (rev yyyy) as [|c r] eqn:E.
      + apply (f_equal (@rev N)) in E. rewrite rev_involutive in E. now subst.
      + cbn in *. apply andb_true_iff in R as [Hc _]. now rewrite (digit_not_space c Hc). }
  rewrite T.
  rewrite (split_field slash dd _ (digits_no_slash _ Hd)).
  rewrite (split_field slash mm _ (digits_no_slash _ Hm)).
  rewrite (split_digits slash yyyy (digits_no_slash _ Hy)).
  cbn [nth_error ToNumber].
  rewrite !StringToNumber_digits by assumption.
  rewrite fsub_one by (pose proof (digitsNumber_nonneg mm Hm); lia).
  reflexivity.
Qed.

Lemma digitValue_range c : isDigit c = true -> 0 <= digitValue c <= 9.
Proof. intros H. apply isDigit_range in H. unfold digitValue. lia. Qed.

Lemma digitsNumber_two a b :
  isDigit a = true -> isDigit b = true -> 0 <= digitsNumber [a; b] <= 99.
Proof.
  intros A B. unfold digitsNumber. cbn [fold_left].
  pose proof (digitValue_range a A). pose proof (digitValue_range b B). lia.
Qed.

Lemma digitsNumber_four a b c d :
  isDigit a = true -> isDigit b = true -> isDigit c = true ->
  isDigit d = true -> 0 <= digitsNumber [a; b; c; d] <= 9999.
Proof.
  intros A B C D. unfold digitsNumber. cbn [fold_left].
  pose proof (digitValue_range a A). pose proof (digitValue_range b B).
  pose proof (digitValue_range c C). pose proof (digitValue_range d D). lia.
Qed.

Lemma engineDayFromYear_DayFromYear y :
  - 399999 <= y -> engineDayFromYear y = DayFromYear y.
Proof.
  intros H. unfold engineDayFromYear, DayFromYear. cbv zeta.
  rewrite !Z.quot_div_nonneg by lia.
  change ((1970 + 399999) / 4) with 100492.
  change ((1970 + 399999) / 100) with 4019.
  change ((1970 + 399999) / 400) with 1004.
  Z.to_euclidean_division_equations; lia.
Qed.

Lemma monthStart_range leap m :
  0 <= leap <= 1 -> 1 <= m <= 12 ->
  0 <= monthStart leap (m - 1) /\ monthStart leap (m - 1) < monthStart leap m
  /\ monthStart leap m <= 365 + leap.
Proof.
  intros L M.
  assert (E : leap = 0 \/ leap = 1) by lia.
  assert (C : m = 1 \/ m = 2 \/ m = 3 \/ m = 4 \/ m = 5 \/ m = 6 \/ m = 7
              \/ m = 8 \/ m = 9 \/ m = 10 \/ m = 11 \/ m = 12) by lia.
  destruct E as [->| ->];
    repeat (destruct C as [->|C]); try subst m; cbn; lia.
Qed.

Lemma InLeapYear_range y : 0 <= InLeapYear y <= 1.
Proof. destruct (InLeapYear_cases y) as [[-> _]|[-> _]]; lia. Qed.

Lemma Date_UTC_any_day y m d :
  100 <= y <= 9999 -> 1 <= m <= 12 -> 0 <= d <= 999 ->
  Date_UTC (fFin y 1) (fFin (m - 1) 1) (fFin d 1)
  = Int (dayNumber y m d * msPerDay).
Proof.
  intros Hy Hm Hd. unfold Date_UTC, MakeFullYear. rewrite Z.quot_1_r.
  replace ((0 <=? y) && (y <=? 99)) with false
    by (symmetry; apply andb_false_iff; right; apply Z.leb_gt; lia).
  unfold MakeDay, between. rewrite !Z.quot_1_r, !Z.mul_1_r.
  replace ((-1000000 <=? y) && (y <=? 1000000)) with true
    by (symmetry; apply andb_true_iff; split; apply Z.leb_le; lia).
  replace ((-10000000 <=? m - 1) && (m - 1 <=? 10000000)) with true
    by (symmetry; apply andb_true_iff; split; apply Z.leb_le; lia).
  cbn [andb].
  replace ((m - 1) / 12) with 0 by (symmetry; apply Z.div_small; lia).
  rewrite Z.mod_small by lia. rewrite Z.add_0_r.
  rewrite engineDayFromYear_DayFromYear by lia.
  fold (dayNumber y m d). unfold MakeDate, TimeClip. rewrite Z.add_0_r.
  assert (B : - 700000 <= DayFromYear y <= 3000000).
  { unfold DayFromYear. Z.to_euclidean_division_equations; lia. }
  pose proof (monthStart_range (InLeapYear y) m (InLeapYear_range y) Hm) as (B1 & B2 & B3).
  pose proof (InLeapYear_range y).
  destruct (Z.ltb_spec maxTime (Z.abs (dayNumber y m d * msPerDay))) as [L|L];
    [|reflexivity].
  unfold dayNumber, maxTime, msPerDay in L. lia.
Qed.

Lemma Date_UTC_valid y m d :
  validDate y m d = true -> 100 <= y <= 9999 ->
  Date_UTC (fFin y 1) (fFin (m - 1) 1) (fFin d 1)
  = Int (dayNumber y m d * msPerDay).
Proof.
  intros V Hy. pose proof (validDate_within y m d V) as (Hm & Hd & Hl).
  pose proof (monthStart_range (InLeapYear y) m (InLeapYear_range y) Hm) as (B1 & B2 & B3).
  pose proof (InLeapYear_range y).
  apply Date_UTC_any_day; try assumption. unfold dayNumber in Hd. lia.
Qed.

(** C4, as amended.  For every valid DD/MM/YYYY string whose year is 0100
    or later, [parseDateStr] gives the timestamp, in seconds, of midnight
    UTC of that day: read back as a UTC date it is the same year, month
    and day, at 00:00:00. *)
Theorem parseDateStr_roundtrip s y m d :
  readDateStr s = Some (y, m, d) -> 100 <= y -> roundTrips s y m d.
Proof.
  intros R Hy. unfold readDateStr in R.
  destruct s as [|d1 [|d2 [|s1 [|m1 [|m2 [|s2 [|y1 [|y2 [|y3 [|y4 [|]]]]]]]]]]];
    try discriminate.
  destruct (forallb isDigit [d1; d2; m1; m2; y1; y2; y3; y4]
            && (s1 =? slash)%N && (s2 =? slash)%N) eqn:F; [|discriminate].
  destruct (validDate _ _ _) eqn:V; [|discriminate].
  injection R as Ey Em Ed.
  apply andb_true_iff in F as [F S2]. apply andb_true_iff in F as [F S1].
  apply N.eqb_eq in S1, S2. subst s1 s2.
  cbn [forallb] in F. rewrite !andb_true_iff in F.
  destruct F as (D1 & D2 & M1 & M2 & Y1 & Y2 & Y3 & Y4 & _).
  assert (Hy' : y <= 9999).
  { subst y. unfold digitsNumber. cbn [fold_left].
    pose proof (digitValue_range _ Y1). pose proof (digitValue_range _ Y2).
    pose proof (digitValue_range _ Y3). pose proof (digitValue_range _ Y4). lia. }
  exists (dayNumber y m d * 86400).
  replace (1000 * (dayNumber y m d * 86400)) with (dayNumber y m d * msPerDay)
    by (unfold msPerDay; lia).
  rewrite Ey, Em, Ed in V.
  destruct (civil_of_dayNumber y m d V) as (C1 & C2 & C3 & C4).
  repeat split; try assumption; try lia.
  change [d1; d2; slash; m1; m2; slash; y1; y2; y3; y4]
    with ([d1; d2] ++ slash :: [m1; m2] ++ slash :: [y1; y2; y3; y4]).
  rewrite parseDateStr_digits;
    try discriminate;
    try (cbn [forallb]; rewrite ?D1, ?D2, ?M1, ?M2, ?Y1, ?Y2, ?Y3, ?Y4; reflexivity);
    try (pose proof (digitsNumber_two _ _ D1 D2);
         pose proof (digitsNumber_two _ _ M1 M2);
         pose proof (digitsNumber_four _ _ _ _ Y1 Y2 Y3 Y4); lia).
  rewrite Ey, Em, Ed.
  rewrite (Date_UTC_valid y m d V) by lia.
  unfold floor_div_1000, msPerDay. do 2 f_equal.
  replace (dayNumber y m d * 86400000) with (dayNumber y m d * 86400 * 1000) by lia.
  apply Z.div_mul. lia.
Qed.

Lemma parseDateStr_roundtrip_witness : roundTrips (lit "29/02/2024") 2024 2 29.
Proof. apply parseDateStr_roundtrip; [vm_compute; reflexivity | lia]. Defined.

(** C4 as worded fails below year 100: [Date.UTC] reads the year 0050 as
    1950. *)
Lemma parseDateStr_two_digit_year :
  readDateStr (lit "01/01/0050") = Some (50, 1, 1)
  /\ ~ roundTrips (lit "01/01/0050") 50 1 1.
Proof.
  split; [vm_compute; reflexivity|].
  intros (t & P & Y & _). vm_compute in P. injection P as <-.
  vm_compute in Y. discriminate.
Qed.

(** Parsing, then formatting back. *)
Example parse_then_format :
  (t <- parseDateStr (Some (lit "29/02/2024")) ;;
   toISOString (mul (Int 1000) t))
  = Ok (lit "2024-02-29T00:00:00.000Z").
Proof. reflexivity. Qed.

(** ** Lengths *)

Lemma digitsOf_length fuel : forall n acc,
  (length (digitsOf fuel n acc) <= fuel + length acc)%nat.
Proof.
  induction fuel as [|f IH]; intros n acc; cbn [digitsOf]; [lia|].
  destruct (n <? 10); [cbn [length]; lia|].
  specialize (IH (n / 10) ((48 + Z.to_N (n mod 10))%N :: acc)).
  cbn [length] in IH. lia.
Qed.

Lemma decimal_length n : 0 <= n <= maxTime -> (length (decimal n) <= 53)%nat.
Proof.
  intros H. unfold decimal.
  pose proof (digitsOf_length (S (Z.to_nat (Z.log2 n))) n []) as L. cbn [length] in L.
  assert (B : Z.log2 n <= Z.log2 maxTime) by (apply Z.log2_le_mono; lia).
  change (Z.log2 maxTime) with 52 in B.
  pose proof (Z.log2_nonneg n). lia.
Qed.

Lemma NumberToString_length n :
  clipped n -> (length (NumberToString n) <= 54)%nat.
Proof.
  destruct n as [|z]; cbn [clipped NumberToString]; intros H; [cbn; lia|].
  destruct (Z.ltb_spec z 0).
  - cbn [length]. pose proof (decimal_length (- z)). lia.
  - pose proof (decimal_length z). lia.
Qed.

Lemma TimeClip_clipped t : clipped (TimeClip t).
Proof.
  destruct t as [|v]; cbn; [exact I|].
  destruct (Z.ltb_spec maxTime (Z.abs v)); cbn; [exact I | assumption].
Qed.

Lemma floor_div_1000_clipped n : clipped n -> clipped (floor_div_1000 n).
Proof.
  destruct n as [|z]; cbn; [trivial|]. unfold maxTime. intros H.
  Z.to_euclidean_division_equations; lia.
Qed.

Lemma parseDateStr_clipped str n : parseDateStr str = Ok n -> clipped n.
Proof.
  unfold parseDateStr. destruct str as [s|]; cbn [receiver bind]; [|discriminate].
  intros E. injection E as <-. apply floor_div_1000_clipped, TimeClip_clipped.
Qed.

Lemma header_length n : clipped n -> (length (header n) <= 274)%nat.
Proof.
  intros H. apply NumberToString_length in H.
  unfold header, dateToken. rewrite !length_app. cbn [length lit nl].
  cbn. lia.
Qed.

(** ** The packer *)

Lemma displayLine_trim asOf validSec expireSec name :
  trim (displayLine asOf validSec expireSec name)
  = displayLine asOf validSec expireSec name.
Proof.
  apply trim_fixed; unfold displayLine;
    destruct (gt validSec asOf); [| destruct (gt expireSec asOf) | |
                                    destruct (gt expireSec asOf)];
    try reflexivity; rewrite !rev_app_distr; reflexivity.
Qed.

Lemma displayLine_head asOf validSec expireSec name :
  exists c r, displayLine asOf validSec expireSec name = c :: r
              /\ (c = 42%N \/ c = 126%N).
Proof.
  unfold displayLine.
  destruct (gt validSec asOf); [|destruct (gt expireSec asOf)];
    eexists; eexists; (split; [reflexivity|]); auto.
Qed.

Lemma forEach_invariant {S A} (I : S -> Prop) (body : S -> A -> result S) :
  (forall s a s', I s -> body s a = Ok s' -> I s') ->
  forall l s s', I s -> forEach body l s = Ok s' -> I s'.
Proof.
  intros Step. induction l as [|a l IH]; cbn [forEach]; intros s s' Hs E.
  - injection E as <-. exact Hs.
  - destruct (body s a) as [s1|] eqn:B; [|discriminate]. cbn [bind] in E.
    eapply IH; [|exact E]. eapply Step; eassumption.
Qed.

Lemma parsePhase_inv tsv asOf st :
  parsePhase tsv = Ok (asOf, st) ->
  exists row1 st0,
    nth_error (split 10%N tsv) 1 = Some row1
    /\ parseDateStr (nth_error (split tab row1) 8) = Ok asOf
    /\ rowLoop asOf (slice tsvSkipRows (split 10%N tsv)) = Ok st0
    /\ st = {| fullMsgs := fullMsgs st0 ++ [fullMsg st0];
               fullMsg := fullMsg st0;
               numPlayers := numPlayers st0 |}.
Proof.
  unfold parsePhase.
  destruct (nth_error (split 10%N tsv) 1) as [row1|] eqn:R; [|discriminate].
  cbn [receiver bind].
  destruct (parseDateStr (nth_error (split tab row1) 8)) as [n|] eqn:D;
    [|discriminate].
  cbn [bind].
  destruct (rowLoop n _) as [st0|] eqn:L; [|discriminate].
  cbn [bind]. intros E. injection E as <- <-.
  exists row1, st0. repeat split; assumption.
Qed.

(** ** The row loop *)

Lemma split_nonempty sep s : exists h t, split sep s = h :: t.
Proof.
  destruct s as [|c r]; cbn; [now eexists; eexists|].
  destruct (c =? sep)%N; [now eexists; eexists|].
  destruct (split sep r); now eexists; eexists.
Qed.

Lemma split_length sep s : (1 <= length (split sep s))%nat.
Proof. destruct (split_nonempty sep s) as (h & t & ->). cbn. lia. Qed.

Lemma parseDateStr_defined s : exists n, parseDateStr (Some s) = Ok n.
Proof. unfold parseDateStr. cbn [receiver bind]. eexists. reflexivity. Qed.

Lemma processRow_blank asOf st tsvLine :
  blank tsvLine = true -> processRow asOf st tsvLine = Ok st.
Proof. unfold blank, processRow. now intros ->. Qed.

Lemma processRow_entrant asOf st tsvLine tag validSec expireSec :
  blank tsvLine = false ->
  nth_error (split tab tsvLine) 1 = Some tag ->
  parseDateStr (nth_error (split tab tsvLine) 2) = Ok validSec ->
  parseDateStr (nth_error (split tab tsvLine) 3) = Ok expireSec ->
  processRow asOf st tsvLine
  = Ok (if tooOld asOf expireSec then countPlayer st
        else addLine (countPlayer st)
               (displayLine asOf validSec expireSec (shownName tsvLine))).
Proof.
  unfold blank, processRow, shownName. intros -> T V E.
  destruct (split_nonempty tab tsvLine) as (h & t & S).
  rewrite S in *. cbn [nth_error receiver bind hd]. cbn [nth_error] in T, V, E.
  rewrite T, V, E. cbn [receiver bind].
  now destruct (tooOld asOf expireSec).
Qed.

Lemma displayLine_classify asOf validFrom validUntil name :
  displayLine asOf validFrom validUntil name
  = renderStatus (classify asOf validFrom validUntil) name validFrom validUntil.
Proof.
  unfold displayLine, classify.
  destruct (gt validFrom asOf); [reflexivity|].
  now destruct (gt validUntil asOf).
Qed.

Lemma classify_classifySpec asOf validFrom validUntil :
  validFrom <> NaN ->
  classify asOf validFrom validUntil = classifySpec asOf validFrom validUntil.
Proof.
  intros H. unfold classify, classifySpec, gt, le, lt.
  destruct validFrom as [|f]; [contradiction|].
  destruct asOf as [|a]; [reflexivity|].
  destruct (Z.ltb_spec a f); [reflexivity|].
  destruct (Z.leb_spec f a); [reflexivity | lia].
Qed.

Lemma renderStatus_inj s1 s2 name validFrom validUntil :
  renderStatus s1 name validFrom validUntil
  = renderStatus s2 name validFrom validUntil -> s1 = s2.
Proof.
  destruct s1, s2; cbn [renderStatus]; intros E; try reflexivity;
    exfalso; cbn in E; try discriminate;
    destruct name; cbn in E; discriminate.
Qed.

(** C2, as amended.  A row that is not dropped by the backlog test is in
    exactly one state, chosen by priority: Upcoming when validFrom > asOf,
    else Active when validUntil > asOf, else Expired; its line is the
    rendering of that state and of no other.  The choice is the
    specification's whenever validFrom is a proper timestamp. *)
Theorem line_follows_status asOf st tsvLine tag validFrom validUntil :
  blank tsvLine = false ->
  nth_error (split tab tsvLine) 1 = Some tag ->
  parseDateStr (nth_error (split tab tsvLine) 2) = Ok validFrom ->
  parseDateStr (nth_error (split tab tsvLine) 3) = Ok validUntil ->
  tooOld asOf validUntil = false ->
  let status := classify asOf validFrom validUntil in
  let render s := renderStatus s (shownName tsvLine) validFrom validUntil in
  processRow asOf st tsvLine = Ok (addLine (countPlayer st) (render status))
  /\ (forall s, render s = render status -> s = status)
  /\ (validFrom <> NaN -> status = classifySpec asOf validFrom validUntil).
Proof.
  intros B T V E O status render. repeat split.
  - rewrite (processRow_entrant asOf st tsvLine tag validFrom validUntil B T V E).
    rewrite O. unfold render, status. now rewrite displayLine_classify.
  - intros s. apply renderStatus_inj.
  - apply classify_classifySpec.
Qed.

Lemma line_follows_status_witness :
  processRow (Int 1717200000) (startState (Int 1717200000)) alice
  = Ok (addLine (countPlayer (startState (Int 1717200000)))
          (renderStatus Active (lit "Alice") (Int 1714521600) (Int 1719792000))).
Proof.
  pose proof (line_follows_status (Int 1717200000) (startState (Int 1717200000))
                alice (lit "A") (Int 1714521600) (Int 1719792000)
                eq_refl eq_refl eq_refl eq_refl eq_refl) as H.
  cbv zeta in H. destruct H as [H _]. exact H.
Defined.

(** C2 as worded fails on a start date that does not parse: the row is
    rendered as active, while validFrom <= asOf is false. *)
Lemma status_of_unparsed_start :
  let asOf := Int 1717200000 in
  exists tag validFrom validUntil,
    blank eve = false
    /\ nth_error (split tab eve) 1 = Some tag
    /\ parseDateStr (nth_error (split tab eve) 2) = Ok validFrom
    /\ parseDateStr (nth_error (split tab eve) 3) = Ok validUntil
    /\ ge validUntil (sub asOf (Int (31 * 86400))) = true
    /\ processRow asOf (startState asOf) eve
       <> Ok (addLine (countPlayer (startState asOf))
                (renderStatus (classifySpec asOf validFrom validUntil)
                   (shownName eve) validFrom validUntil)).
Proof.
  exists (lit "E"), NaN, (Int 1719792000).
  repeat split; try (vm_compute; reflexivity).
  vm_compute. discriminate.
Qed.

(** ** The length of the blocks *)

Lemma noNewline_app a b : noNewline (a ++ b) = noNewline a && noNewline b.
Proof. apply forallb_app. Qed.

Lemma digitsOf_noNewline fuel : forall n acc,
  noNewline acc = true -> noNewline (digitsOf fuel n acc) = true.
Proof.
  induction fuel as [|f IH]; intros n acc H; cbn [digitsOf]; [exact H|].
  assert (A : noNewline ((48 + Z.to_N (n mod 10))%N :: acc) = true).
  { cbn [noNewline forallb]. fold (noNewline acc). rewrite H, andb_true_r.
    apply negb_true_iff, N.eqb_neq. lia. }
  destruct (n <? 10); [exact A | now apply IH].
Qed.

Lemma NumberToString_noNewline n : noNewline (NumberToString n) = true.
Proof.
  destruct n as [|z]; [reflexivity|]. cbn [NumberToString]. unfold decimal.
  destruct (z <? 0); [cbn [noNewline forallb]; apply andb_true_iff; split;
                      [reflexivity|] |]; now apply digitsOf_noNewline.
Qed.

Lemma escapeRaw_noNewline s : noNewline s = true -> noNewline (escapeRaw s) = true.
Proof.
  unfold escapeRaw, noNewline. induction s as [|c s IH]; [reflexivity|].
  cbn [forallb flat_map]. rewrite andb_true_iff. intros [Hc Hs].
  rewrite forallb_app, (IH Hs), andb_true_r.
  destruct (isFormattingChar c); cbn [forallb]; now rewrite Hc.
Qed.

Lemma trimStart_forallb (p : N -> bool) s :
  forallb p s = true -> forallb p (trimStart s) = true.
Proof.
  induction s as [|c s IH]; [reflexivity|]. cbn [trimStart].
  destruct (isStrWhiteSpaceChar c); [|trivial].
  cbn [forallb]. rewrite andb_true_iff. intros [_ H]. now apply IH.
Qed.

Lemma trim_forallb (p : N -> bool) s :
  forallb p s = true -> forallb p (trim s) = true.
Proof.
  intros H. unfold trim, trimEnd. rewrite forallb_rev.
  apply trimStart_forallb. rewrite forallb_rev. now apply trimStart_forallb.
Qed.

Lemma split_fields_forallb (p : N -> bool) sep s :
  forallb p s = true -> Forall (fun f => forallb p f = true) (split sep s).
Proof.
  induction s as [|c s IH]; cbn [split forallb].
  - intros _. now repeat constructor.
  - rewrite andb_true_iff. intros [Hc Hs]. specialize (IH Hs).
    destruct (c =? sep)%N; [now constructor|].
    destruct (split sep s) as [|h t]; [now repeat constructor; cbn; rewrite Hc|].
    inversion IH as [|? ? Hh Ht]; subst. constructor; [|assumption].
    cbn [forallb]. now rewrite Hc, Hh.
Qed.

Lemma split_rows_noNewline s :
  Forall (fun r => noNewline r = true) (split 10%N s).
Proof.
  unfold noNewline. induction s as [|c s IH]; cbn [split].
  - now repeat constructor.
  - destruct (c =? 10)%N eqn:E; [now constructor|].
    destruct (split 10%N s) as [|h t]; [now repeat constructor; cbn; rewrite E|].
    inversion IH as [|? ? Hh Ht]; subst. constructor; [|assumption].
    cbn [forallb]. now rewrite E, Hh.
Qed.

Lemma shownName_noNewline tsvLine :
  noNewline tsvLine = true -> noNewline (shownName tsvLine) = true.
Proof.
  intros H. unfold shownName. apply escapeRaw_noNewline, trim_forallb.
  pose proof (split_fields_forallb _ tab tsvLine H) as F.
  destruct (split tab tsvLine) as [|h t]; [reflexivity|].
  now inversion F.
Qed.

Lemma displayLine_noNewline asOf validSec expireSec name :
  noNewline name = true ->
  noNewline (displayLine asOf validSec expireSec name) = true.
Proof.
  intros H. unfold displayLine, dateToken.
  destruct (gt validSec asOf); [|destruct (gt expireSec asOf)];
    rewrite !noNewline_app, H, ?NumberToString_noNewline; reflexivity.
Qed.

Lemma processRow_shownLine asOf st tsvLine st' :
  processRow asOf st tsvLine = Ok st' ->
  (fullMsgs st' = fullMsgs st /\ fullMsg st' = fullMsg st)
  \/ exists validSec expireSec,
       let line := displayLine asOf validSec expireSec (shownName tsvLine) in
       shownLine asOf tsvLine = [line]
       /\ fullMsgs st' = fullMsgs (addLine st line)
       /\ fullMsg st' = fullMsg (addLine st line).
Proof.
  unfold shownLine, entrant.
  destruct (blank tsvLine) eqn:B.
  { rewrite (processRow_blank asOf st tsvLine B). intros E. injection E as <-.
    now left. }
  destruct (nth_error (split tab tsvLine) 1) as [tag|] eqn:T.
  - destruct (parseDateStr (nth_error (split tab tsvLine) 2)) as [v|] eqn:V.
    + destruct (parseDateStr (nth_error (split tab tsvLine) 3)) as [e|] eqn:E.
      * rewrite (processRow_entrant asOf st tsvLine tag v e B T V E).
        destruct (tooOld asOf e); intros H; injection H as <-; [now left|].
        right. exists v, e. cbv zeta. split; [reflexivity|].
        unfold addLine. cbn [countPlayer fullMsgs fullMsg].
        now destruct (_ <? _)%nat.
      * unfold processRow. unfold blank in B. rewrite B.
        destruct (split_nonempty tab tsvLine) as (h & t & S). rewrite S in *.
        cbn [nth_error receiver bind] in *. rewrite T, V, E. discriminate.
    + unfold processRow. unfold blank in B. rewrite B.
      destruct (split_nonempty tab tsvLine) as (h & t & S). rewrite S in *.
      cbn [nth_error receiver bind] in *. rewrite T, V. discriminate.
  - unfold processRow. unfold blank in B. rewrite B.
    destruct (split_nonempty tab tsvLine) as (h & t & S). rewrite S in *.
    cbn [nth_error receiver bind] in *. rewrite T. discriminate.
Qed.

Lemma processRow_packed asOf rows st tsvLine st' :
  In tsvLine rows -> noNewline tsvLine = true ->
  packed asOf rows st -> processRow asOf st tsvLine = Ok st' ->
  packed asOf rows st'.
Proof.
  intros I N [Hq Hb] R. unfold packed.
  apply processRow_shownLine in R as [[-> ->]|(v & e & S & -> & ->)];
    [now split|].
  cbv zeta in S. unfold addLine.
  destruct (Nat.ltb_spec
              (length (fullMsg st ++ displayLine asOf v e (shownName tsvLine)))
              2000) as [L|L]; split; cbn [fullMsgs fullMsg].
  - exact Hq.
  - left. rewrite !length_app in *. cbn [length nl]. lia.
  - apply Forall_app. split; [exact Hq | constructor; [exact Hb | constructor]].
  - right. rewrite displayLine_trim. split.
    + now apply displayLine_noNewline, shownName_noNewline.
    + now exists tsvLine.
Qed.

Lemma forEach_invariant_in {S A} (I : S -> Prop) (P : A -> Prop)
  (body : S -> A -> result S) :
  (forall s a s', P a -> I s -> body s a = Ok s' -> I s') ->
  forall l s s', Forall P l -> I s -> forEach body l s = Ok s' -> I s'.
Proof.
  intros Step. induction l as [|a l IH]; cbn [forEach]; intros s s' F Hs E.
  - injection E as <-. exact Hs.
  - destruct (body s a) as [s1|] eqn:B; [|discriminate]. cbn [bind] in E.
    inversion F as [|? ? Pa Pl]; subst.
    eapply IH; [exact Pl | | exact E]. eapply Step; eassumption.
Qed.

Lemma skipn_In {A} n (l : list A) a : In a (skipn n l) -> In a l.
Proof.
  revert l. induction n as [|n IH]; intros [|x l]; cbn; auto.
Qed.

(** C1, as amended.  Every block the packer emits is at most 2000
    characters long, unless it is a single display line on its own, the
    line of one row and free of newlines: a line is appended only while
    block and line together stay under 2000, the newline between them not
    counted. *)
Theorem blocks_within_limit tsv asOf st :
  parsePhase tsv = Ok (asOf, st) ->
  Forall (withinLimit asOf (slice tsvSkipRows (split 10%N tsv))) (fullMsgs st).
Proof.
  intros E. apply parsePhase_inv in E as (row1 & st0 & _ & D & L & ->).
  cbn [fullMsgs]. set (rows := slice tsvSkipRows (split 10%N tsv)) in *.
  assert (P : packed asOf rows st0).
  { unfold rowLoop in L.
    eapply (forEach_invariant_in (packed asOf rows)
              (fun r => In r rows /\ noNewline r = true)); [| | |exact L].
    - intros s a s' [I N]. now apply processRow_packed.
    - apply Forall_forall. intros r I. split; [exact I|].
      pose proof (split_rows_noNewline tsv) as F. rewrite Forall_forall in F.
      apply F. unfold rows, slice in I. now apply skipn_In in I.
    - unfold startState. split; cbn [fullMsgs fullMsg]; [constructor|].
      left. pose proof (header_length asOf (parseDateStr_clipped _ _ D)). lia. }
  destruct P as [Hq Hb]. apply Forall_app. split; [exact Hq|].
  constructor; [exact Hb | constructor].
Qed.

Lemma blocks_within_limit_witness :
  exists asOf st,
    parsePhase longNameSheet = Ok (asOf, st)
    /\ map (@length N) (fullMsgs st) = [273; 2137; 68]%nat
    /\ Forall (withinLimit asOf (slice tsvSkipRows (split 10%N longNameSheet)))
         (fullMsgs st).
Proof.
  eexists. eexists. split; [vm_compute; reflexivity|].
  split; [vm_compute; reflexivity|].
  apply (blocks_within_limit longNameSheet).
  vm_compute. reflexivity.
Defined.

(** C1 as worded fails: header and one line of 1769 characters pass the
    test at 1999 and make a block of exactly 2000. *)
Lemma blocks_under_limit_fails :
  exists asOf st,
    parsePhase tightSheet = Ok (asOf, st)
    /\ ~ Forall (underLimit asOf (slice tsvSkipRows (split 10%N tightSheet)))
           (fullMsgs st).
Proof.
  eexists. eexists. split; [vm_compute; reflexivity|].
  intros F. apply Forall_inv in F. destruct F as [L|[N _]].
  - vm_compute in L. lia.
  - vm_compute in N. discriminate.
Qed.

Lemma countPlayer_bump k st : countPlayer (bump k st) = bump k (countPlayer st).
Proof. unfold countPlayer, bump. cbn. f_equal. lia. Qed.

Lemma addLine_bump k st line : addLine (bump k st) line = bump k (addLine st line).
Proof.
  unfold addLine. cbn [bump fullMsg fullMsgs numPlayers].
  now destruct (length (fullMsg st ++ line) <? 2000)%nat.
Qed.

Lemma processRow_bump asOf k st tsvLine :
  processRow asOf (bump k st) tsvLine
  = mapResult (bump k) (processRow asOf st tsvLine).
Proof.
  unfold processRow.
  destruct (negb (truthy (trim tsvLine))); [reflexivity|].
  destruct (receiver (nth_error (split tab tsvLine) 0)); [|reflexivity].
  destruct (receiver (nth_error (split tab tsvLine) 1)); [|reflexivity].
  cbn [bind].
  destruct (parseDateStr (nth_error (split tab tsvLine) 2)); [|reflexivity].
  destruct (parseDateStr (nth_error (split tab tsvLine) 3)) as [e|]; [|reflexivity].
  cbn [bind mapResult]. rewrite countPlayer_bump.
  destruct (tooOld asOf e); [reflexivity|]. now rewrite addLine_bump.
Qed.

Lemma forEach_bump asOf k rows : forall st,
  forEach (processRow asOf) rows (bump k st)
  = mapResult (bump k) (forEach (processRow asOf) rows st).
Proof.
  induction rows as [|r rows IH]; intros st; cbn [forEach]; [reflexivity|].
  rewrite processRow_bump.
  destruct (processRow asOf st r) as [s1|]; cbn [mapResult bind]; [apply IH | reflexivity].
Qed.

Lemma forEach_app {S A} (body : S -> A -> result S) l1 l2 s :
  forEach body (l1 ++ l2) s = (s1 <- forEach body l1 s ;; forEach body l2 s1).
Proof.
  revert s. induction l1 as [|a l1 IH]; intros s; cbn [forEach app bind]; [reflexivity|].
  destruct (body s a); cbn [bind]; [apply IH | reflexivity].
Qed.

Lemma report_response env net tsv calls code body :
  report env net tsv = (calls, Response code body) ->
  exists asOf st iso,
    parsePhase tsv = Ok (asOf, st)
    /\ code = 200
    /\ body = lit "Last updated: " ++ iso ++ nl
              ++ lit "Players: " ++ NumberToString (Int (numPlayers st)).
Proof.
  unfold report.
  destruct (parsePhase tsv) as [[asOf st]|]; [|intros E; discriminate].
  destruct (receiver (env "VOTER_REGISTRATION_MSG_IDS"%string)) as [ids|];
    [|intros E; discriminate].
  destruct (publish net _ _ _ _ _) as [cs [w|]]; [|intros E; discriminate].
  unfold successBody.
  destruct (toISOString _) as [iso|]; cbn [bind]; intros E; [|discriminate].
  injection E as _ <- <-. now exists asOf, st, iso.
Qed.

(** C3.  A row whose validUntil is more than 31 days before asOf leaves
    the blocks as they would be without the row, and adds one to the
    player count that the success response reports. *)
Theorem stale_row_counted_not_shown
  tsv asOf st before tsvLine after tag validFrom validUntil :
  parsePhase tsv = Ok (asOf, st) ->
  slice tsvSkipRows (split 10%N tsv) = before ++ tsvLine :: after ->
  blank tsvLine = false ->
  nth_error (split tab tsvLine) 1 = Some tag ->
  parseDateStr (nth_error (split tab tsvLine) 2) = Ok validFrom ->
  parseDateStr (nth_error (split tab tsvLine) 3) = Ok validUntil ->
  lt validUntil (sub asOf (Int (31 * 86400))) = true ->
  (exists st',
      rowLoop asOf (before ++ after) = Ok st'
      /\ fullMsgs st = fullMsgs st' ++ [fullMsg st']
      /\ numPlayers st = numPlayers st' + 1)
  /\ (forall env net calls code body,
        report env net tsv = (calls, Response code body) ->
        exists iso,
          code = 200
          /\ body = lit "Last updated: " ++ iso ++ nl
                    ++ lit "Players: " ++ NumberToString (Int (numPlayers st))).
Proof.
  intros P R B T V E O. split.
  - apply parsePhase_inv in P as (row1 & st0 & _ & _ & L & ->).
    rewrite R in L. unfold rowLoop in *. rewrite forEach_app in *.
    destruct (forEach (processRow asOf) before (startState asOf)) as [s1|];
      [|discriminate].
    cbn [bind forEach] in *.
    rewrite (processRow_entrant asOf s1 tsvLine tag validFrom validUntil B T V E) in L.
    change (tooOld asOf validUntil) with (lt validUntil (sub asOf (Int (31 * 86400)))) in L.
    rewrite O in L. cbn [bind] in L.
    change (countPlayer s1) with (bump 1 s1) in L.
    rewrite forEach_bump in L.
    destruct (forEach (processRow asOf) after s1) as [s2|]; [|discriminate].
    cbn [mapResult] in L. injection L as <-.
    exists s2. repeat split.
  - intros env net calls code body H.
    apply report_response in H as (asOf' & st' & iso & P' & -> & ->).
    rewrite P in P'. injection P' as <- <-. now exists iso.
Qed.

Lemma stale_row_counted_not_shown_witness :
  exists st st',
    parsePhase (sampleSheet [alice; carl; bob]) = Ok (Int 1717200000, st)
    /\ rowLoop (Int 1717200000) ([alice] ++ [bob]) = Ok st'
    /\ fullMsgs st = fullMsgs st' ++ [fullMsg st']
    /\ numPlayers st = numPlayers st' + 1.
Proof.
  eexists.
  assert (P : parsePhase (sampleSheet [alice; carl; bob]) = Ok (Int 1717200000, _))
    by (vm_compute; reflexivity).
  destruct (stale_row_counted_not_shown _ _ _ [alice] carl [bob] (lit "C")
              (Int 1704067200) (Int 1706745600) P
              eq_refl eq_refl eq_refl eq_refl eq_refl eq_refl)
    as [(st' & L & F & N) _].
  exists st'. exact (conj P (conj L (conj F N))).
Defined.

(** ** Partiality of the parse *)

Lemma nth_error_defined {A} (l : list A) n :
  (n < length l)%nat -> exists a, nth_error l n = Some a.
Proof.
  intros H. destruct (nth_error l n) as [a|] eqn:E; [now exists a|].
  apply nth_error_None in E. lia.
Qed.

Lemma processRow_completes asOf st tsvLine :
  blank tsvLine || (4 <=? length (split tab tsvLine))%nat = true ->
  exists st', processRow asOf st tsvLine = Ok st'.
Proof.
  intros H. apply orb_true_iff in H as [B|L].
  - exists st. now apply processRow_blank.
  - apply Nat.leb_le in L. destruct (blank tsvLine) eqn:B.
    + exists st. now apply processRow_blank.
    + destruct (nth_error_defined (split tab tsvLine) 1 ltac:(lia)) as (tag & T).
      destruct (nth_error_defined (split tab tsvLine) 2 ltac:(lia)) as (v & V).
      destruct (nth_error_defined (split tab tsvLine) 3 ltac:(lia)) as (e & E).
      destruct (parseDateStr_defined v) as (validSec & PV).
      destruct (parseDateStr_defined e) as (expireSec & PE).
      rewrite <- V in PV. rewrite <- E in PE.
      rewrite (processRow_entrant asOf st tsvLine tag validSec expireSec B T PV PE).
      eexists. reflexivity.
Qed.

Lemma processRow_throws asOf st tsvLine :
  blank tsvLine || (4 <=? length (split tab tsvLine))%nat = false ->
  processRow asOf st tsvLine = Throw TypeError.
Proof.
  intros H. apply orb_false_iff in H as [B L]. apply Nat.leb_gt in L.
  unfold blank in B. unfold processRow. rewrite B.
  destruct (split_nonempty tab tsvLine) as (mcName & t & S). rewrite S in *.
  cbn [nth_error receiver bind].
  destruct t as [|tag [|v [|e t]]]; cbn [nth_error receiver bind].
  - reflexivity.
  - reflexivity.
  - destruct (parseDateStr_defined v) as (n & ->). reflexivity.
  - cbn [length] in L. lia.
Qed.

Lemma forEach_completes asOf rows :
  forallb (fun r => blank r || (4 <=? length (split tab r))%nat) rows = true ->
  forall st, exists st', forEach (processRow asOf) rows st = Ok st'.
Proof.
  induction rows as [|r rows IH]; cbn [forallb forEach]; intros H st.
  - now exists st.
  - apply andb_true_iff in H as [Hr Hrows].
    destruct (processRow_completes asOf st r Hr) as (s1 & ->). cbn [bind].
    now apply IH.
Qed.

Lemma forEach_throws asOf rows :
  forallb (fun r => blank r || (4 <=? length (split tab r))%nat) rows = false ->
  forall st, forEach (processRow asOf) rows st = Throw TypeError.
Proof.
  induction rows as [|r rows IH]; cbn [forallb forEach]; intros H st;
    [discriminate|].
  destruct (blank r || (4 <=? length (split tab r))%nat) eqn:Hr.
  - destruct (processRow_completes asOf st r Hr) as (s1 & ->). cbn [bind].
    now apply IH.
  - now rewrite (processRow_throws asOf st r Hr).
Qed.

(** C10.  The parse completes exactly on the sheets with two rows, nine
    columns in row 1 and four fields in every later non-blank row; on
    any other sheet a method call on [undefined] throws a TypeError, and
    the invocation ends with it, nothing published. *)
Theorem parse_completes_iff_well_formed tsv :
  (wellFormedSheet tsv = true -> exists r, parsePhase tsv = Ok r)
  /\ (wellFormedSheet tsv = false ->
      parsePhase tsv = Throw TypeError
      /\ forall env net, report env net tsv = ([], Uncaught TypeError)).
Proof.
  assert (Bad : parsePhase tsv = Throw TypeError ->
                forall env net, report env net tsv = ([], Uncaught TypeError)).
  { intros E env net. unfold report. now rewrite E. }
  unfold wellFormedSheet, parsePhase in *. cbv zeta in *.
  set (rows := split 10%N tsv) in *.
  destruct (nth_error rows 1) as [row1|] eqn:R1.
  - assert (L2 : (2 <=? length rows)%nat = true).
    { apply Nat.leb_le.
      assert (nth_error rows 1 <> None) as N by (rewrite R1; discriminate).
      apply nth_error_Some in N. lia. }
    rewrite L2.
    replace (nth 1 rows []) with row1 by (symmetry; now apply nth_error_nth).
    cbn [receiver bind andb] in *.
    destruct (9 <=? length (split tab row1))%nat eqn:L9; cbn [andb].
    + apply Nat.leb_le in L9.
      destruct (nth_error_defined (split tab row1) 8 ltac:(lia)) as (cell & C).
      rewrite C in *. destruct (parseDateStr_defined cell) as (asOf & D).
      rewrite D in *. cbn [bind] in *. unfold rowLoop in *. split; intros W.
      * destruct (forEach_completes asOf _ W (startState asOf)) as (st & ->).
        cbn [bind]. eexists. reflexivity.
      * rewrite (forEach_throws asOf _ W (startState asOf)) in *. cbn [bind] in *.
        split; [reflexivity | now apply Bad].
    + apply Nat.leb_gt in L9.
      assert (C : nth_error (split tab row1) 8 = None)
        by (apply nth_error_None; lia).
      rewrite C in *. cbn [parseDateStr receiver bind] in *.
      split; [discriminate | intros _; split; [reflexivity | now apply Bad]].
  - assert (L2 : (2 <=? length rows)%nat = false).
    { apply Nat.leb_gt. apply nth_error_None in R1. lia. }
    rewrite L2. cbn [receiver bind andb] in *.
    split; [discriminate | intros _; split; [reflexivity | now apply Bad]].
Qed.

Lemma parse_completes_iff_well_formed_witness :
  (exists r, parsePhase (sampleSheet [alice; []; bob]) = Ok r)
  /\ parsePhase shortRowSheet = Throw TypeError.
Proof.
  split.
  - apply (proj1 (parse_completes_iff_well_formed (sampleSheet [alice; []; bob]))).
    vm_compute. reflexivity.
  - apply (proj2 (parse_completes_iff_well_formed shortRowSheet)).
    vm_compute. reflexivity.
Defined.

(** ** Publication *)

Lemma combine_shift (f g : nat * jsstring -> NetCall) :
  (forall i id, f (S i, id) = g (i, id)) ->
  forall ns ids, map f (combine (map S ns) ids) = map g (combine ns ids).
Proof.
  intros H. induction ns as [|n ns IH]; intros [|id ids]; cbn; try reflexivity.
  now rewrite H, IH.
Qed.

Lemma nth_tl {A} i (l : list A) d : nth (S i) l d = nth i (tl l) d.
Proof. destruct l; [now destruct i | reflexivity]. Qed.

Lemma expectedCalls_cons webhook msgId ids blocks :
  expectedCalls webhook (msgId :: ids) blocks
  = Patch (webhook ++ lit "/messages/" ++ msgId) (fst (shiftOr blocks))
    :: expectedCalls webhook ids (snd (shiftOr blocks)).
Proof.
  unfold expectedCalls. cbn [length seq combine map fst snd]. f_equal.
  - now destruct blocks.
  - rewrite <- seq_shift.
    replace (snd (shiftOr blocks)) with (tl blocks) by now destruct blocks.
    apply combine_shift. intros i id. cbn [fst snd]. now rewrite nth_tl.
Qed.

Lemma expectedCalls_nil webhook ids :
  expectedCalls webhook ids []
  = map (fun msgId => Patch (webhook ++ lit "/messages/" ++ msgId) (lit "-")) ids.
Proof.
  induction ids as [|msgId ids IH]; [reflexivity|].
  rewrite expectedCalls_cons. cbn [shiftOr fst snd map]. now rewrite IH.
Qed.

Lemma expectedCalls_length webhook ids blocks :
  length (expectedCalls webhook ids blocks) = length ids.
Proof.
  unfold expectedCalls. now rewrite length_map, length_combine, length_seq, Nat.min_id.
Qed.

Lemma nth_error_enumerate (ids : list jsstring) : forall base i msgId,
  nth_error ids i = Some msgId ->
  nth_error (combine (seq base (length ids)) ids) i = Some ((base + i)%nat, msgId).
Proof.
  induction ids as [|a ids IH]; intros base [|i] msgId H; cbn in *;
    try discriminate.
  - injection H as ->. now rewrite Nat.add_0_r.
  - rewrite (IH (S base) i msgId H). do 2 f_equal. lia.
Qed.

Lemma publish_answered net webhook ids :
  answering net ->
  forall blocks whRes sent,
  exists r,
    publish net webhook ids blocks whRes sent
    = (expectedCalls webhook ids blocks, Ok r).
Proof.
  intros A. induction ids as [|msgId ids IH]; intros blocks whRes sent.
  - exists whRes. reflexivity.
  - cbn [publish]. rewrite expectedCalls_cons.
    destruct (shiftOr blocks) as [content queue]. cbn [fst snd].
    destruct (A sent) as (text & ->).
    destruct (IH queue (whRes ++ text ++ nl) (S sent)) as (r & ->).
    now exists r.
Qed.

(** C5.  With every call answered, the publisher issues one update per
    message id, in order; the i-th carries the i-th block, or "-" when
    the blocks have run out; blocks beyond the ids are not sent and the
    loop ends normally. *)
Theorem one_update_per_message_id net webhook ids blocks whRes sent :
  answering net ->
  exists calls r,
    publish net webhook ids blocks whRes sent = (calls, Ok r)
    /\ length calls = length ids
    /\ forall i msgId,
         nth_error ids i = Some msgId ->
         nth_error calls i
         = Some (Patch (webhook ++ lit "/messages/" ++ msgId)
                   (nth i blocks (lit "-"))).
Proof.
  intros A.
  destruct (publish_answered net webhook ids A blocks whRes sent) as (r & E).
  exists (expectedCalls webhook ids blocks), r.
  split; [exact E|]. split; [apply expectedCalls_length|].
  intros i msgId H. unfold expectedCalls.
  now rewrite nth_error_map, (nth_error_enumerate ids 0 i msgId H).
Qed.

Lemma answering_replying tsv : answering (replying tsv).
Proof. intros [|k]; eexists; reflexivity. Qed.

Lemma one_update_per_message_id_witness :
  exists calls r,
    publish (replying []) (lit "https://hook") [lit "11"; lit "22"; lit "33"]
      fiveBlocks [] 1 = (calls, Ok r)
    /\ length calls = 3%nat
    /\ forall i msgId,
         nth_error [lit "11"; lit "22"; lit "33"] i = Some msgId ->
         nth_error calls i
         = Some (Patch (lit "https://hook" ++ lit "/messages/" ++ msgId)
                   (nth i fiveBlocks (lit "-"))).
Proof.
  exact (one_update_per_message_id (replying []) (lit "https://hook")
           [lit "11"; lit "22"; lit "33"] fiveBlocks [] 1%nat
           (answering_replying [])).
Defined.

(** Three message ids and five blocks: the first three blocks go out. *)
Example three_ids_five_blocks :
  publish (replying []) (lit "https://hook") [lit "11"; lit "22"; lit "33"]
    fiveBlocks [] 1
  = ([Patch (lit "https://hook/messages/11") (lit "one");
      Patch (lit "https://hook/messages/22") (lit "two");
      Patch (lit "https://hook/messages/33") (lit "three")],
     Ok (lit "ok" ++ nl ++ lit "ok" ++ nl ++ lit "ok" ++ nl)).
Proof. reflexivity. Qed.

(** Whatever the network does, the updates issued are the first few of
    the expected ones. *)
Lemma publish_prefix net webhook ids : forall blocks whRes sent,
  exists n,
    fst (publish net webhook ids blocks whRes sent)
    = firstn n (expectedCalls webhook ids blocks).
Proof.
  induction ids as [|msgId ids IH]; intros blocks whRes sent.
  - exists O. reflexivity.
  - cbn [publish]. rewrite expectedCalls_cons.
    destruct (shiftOr blocks) as [content queue]. cbn [fst snd].
    destruct (net sent) as [text|e].
    + destruct (IH queue (whRes ++ text ++ nl) (S sent)) as (n & E).
      destruct (publish net webhook ids queue _ _) as [calls r].
      cbn [fst] in *. exists (S n). cbn [firstn]. now rewrite E.
    + exists 1%nat. reflexivity.
Qed.

(** ** The handler's gates *)

Lemma eqb_str_eq a : forall b, eqb_str a b = true <-> a = b.
Proof.
  induction a as [|x a IH]; intros [|y b]; cbn; split; intros H;
    try reflexivity; try discriminate.
  - apply andb_true_iff in H as [Hx Ha]. apply N.eqb_eq in Hx.
    apply IH in Ha. now subst.
  - injection H as -> ->. rewrite N.eqb_refl. now apply IH.
Qed.

Lemma strictEq_eq a b : strictEq a b = true <-> a = b.
Proof.
  destruct a as [x|], b as [y|]; cbn; split; intros H;
    try reflexivity; try discriminate.
  - now apply eqb_str_eq in H as ->.
  - injection H as ->. now apply eqb_str_eq.
Qed.

Lemma handler_rejects_unequal_secret event env net :
  querySecret event <> env "VOTER_REGISTRATION_SECRET"%string ->
  handler event env net = ([], Response 400 (lit "Invalid secret")).
Proof.
  intros H. unfold handler.
  destruct (strictEq _ _) eqn:E; [|reflexivity].
  now apply strictEq_eq in E.
Qed.

Lemma handler_rejects_absent_secret event env net secret :
  querySecret event = None ->
  env "VOTER_REGISTRATION_SECRET"%string = Some secret ->
  handler event env net = ([], Response 400 (lit "Invalid secret")).
Proof.
  intros Q S. apply handler_rejects_unequal_secret. rewrite Q, S. discriminate.
Qed.

Lemma checkEnv_found env names envName :
  checkEnv env names = Some envName ->
  In envName names /\ falsy (env envName) = true.
Proof.
  induction names as [|n names IH]; cbn [checkEnv]; [discriminate|].
  destruct (falsy (env n)) eqn:F; intros E.
  - injection E as <-. split; [now left | exact F].
  - destruct (IH E). split; [now right | assumption].
Qed.

Lemma checkEnv_none env names :
  checkEnv env names = None <-> forall n, In n names -> falsy (env n) = false.
Proof.
  induction names as [|n names IH]; cbn [checkEnv]; split; intros H.
  - intros ? [].
  - reflexivity.
  - destruct (falsy (env n)) eqn:F; [discriminate|].
    intros m [<-|M]; [exact F | now apply IH].
  - rewrite (H n (or_introl eq_refl)). apply IH. intros m M. apply H. now right.
Qed.

Lemma handler_missing_variable event env net envName :
  querySecret event = env "VOTER_REGISTRATION_SECRET"%string ->
  In envName requiredEnv ->
  falsy (env envName) = true ->
  exists missing,
    In missing requiredEnv /\ falsy (env missing) = true
    /\ handler event env net
       = ([], Response 500
                (lit "Missing environment variable "
                 ++ map Ascii.N_of_ascii (String.list_ascii_of_string missing))).
Proof.
  intros Q I F. unfold handler.
  apply strictEq_eq in Q. rewrite Q. cbn [negb].
  destruct (checkEnv env requiredEnv) as [m|] eqn:C.
  - exists m. destruct (checkEnv_found _ _ _ C). now repeat split.
  - rewrite checkEnv_none in C. rewrite (C envName I) in F. discriminate.
Qed.

Lemma falsy_false v : falsy v = false -> exists s, v = Some s.
Proof. destruct v as [s|]; [now exists s | discriminate]. Qed.

Lemma handler_fetches event env net :
  querySecret event = env "VOTER_REGISTRATION_SECRET"%string ->
  checkEnv env requiredEnv = None ->
  handler event env net
  = match net O with
    | Throw e =>
        ([Get (coerce (env "VOTER_REGISTRATION_TSV_URL"%string))], Uncaught e)
    | Ok tsv =>
        (Get (coerce (env "VOTER_REGISTRATION_TSV_URL"%string))
         :: fst (report env net tsv), snd (report env net tsv))
    end.
Proof.
  intros Q C. unfold handler. apply strictEq_eq in Q. rewrite Q, C. cbn [negb].
  destruct (net O) as [tsv|e]; [|reflexivity].
  now destruct (report env net tsv).
Qed.

Lemma report_calls env net tsv asOf st ids :
  parsePhase tsv = Ok (asOf, st) ->
  env "VOTER_REGISTRATION_MSG_IDS"%string = Some ids ->
  answering net ->
  fst (report env net tsv)
  = expectedCalls (coerce (env "VOTER_REGISTRATION_WEBHOOK_URL"%string))
      (split space ids) (fullMsgs st).
Proof.
  intros P I A. unfold report. rewrite P, I. cbn [receiver].
  destruct (publish_answered net
              (coerce (env "VOTER_REGISTRATION_WEBHOOK_URL"%string))
              (split space ids) A (fullMsgs st) [] 1%nat) as (r & ->).
  now destruct (successBody asOf (numPlayers st)).
Qed.

(** ** No entrants *)

Lemma forEach_blank asOf rows :
  forallb blank rows = true ->
  forall st, forEach (processRow asOf) rows st = Ok st.
Proof.
  induction rows as [|r rows IH]; cbn [forallb forEach]; intros H st;
    [reflexivity|].
  apply andb_true_iff in H as [Hr Hrows].
  rewrite (processRow_blank asOf st r Hr). cbn [bind]. now apply IH.
Qed.

(** C8.  The packer always emits at least one block.  When no row after
    the two skipped ones has content, it emits the header alone; the
    header goes to the first message id and "-" to every other one. *)
Theorem header_only_without_entrants tsv asOf st :
  parsePhase tsv = Ok (asOf, st) ->
  (1 <= length (fullMsgs st))%nat
  /\ (forallb blank (slice tsvSkipRows (split 10%N tsv)) = true ->
      fullMsgs st = [header asOf]
      /\ numPlayers st = 0
      /\ forall event env net,
           querySecret event = env "VOTER_REGISTRATION_SECRET"%string ->
           checkEnv env requiredEnv = None ->
           net O = Ok tsv ->
           answering net ->
           let webhook := coerce (env "VOTER_REGISTRATION_WEBHOOK_URL"%string) in
           exists msgId rest out,
             option_map (split space) (env "VOTER_REGISTRATION_MSG_IDS"%string)
             = Some (msgId :: rest)
             /\ handler event env net
                = (Get (coerce (env "VOTER_REGISTRATION_TSV_URL"%string))
                   :: Patch (webhook ++ lit "/messages/" ++ msgId) (header asOf)
                   :: map (fun id =>
                             Patch (webhook ++ lit "/messages/" ++ id) (lit "-"))
                        rest,
                   out)).
Proof.
  intros P. pose proof P as P0.
  apply parsePhase_inv in P as (row1 & st0 & _ & _ & L & ->).
  cbn [fullMsgs numPlayers]. split; [rewrite length_app; cbn; lia|].
  intros B. unfold rowLoop in L. rewrite (forEach_blank asOf _ B) in L.
  injection L as <-. cbn [startState fullMsgs fullMsg numPlayers app] in *.
  split; [reflexivity|]. split; [reflexivity|].
  intros event env net Q C N A.
  assert (I : In "VOTER_REGISTRATION_MSG_IDS"%string requiredEnv)
    by (cbn; tauto).
  destruct (falsy_false _ (proj1 (checkEnv_none env requiredEnv) C _ I))
    as (ids & Hids).
  destruct (split_nonempty space ids) as (msgId & rest & S).
  exists msgId, rest, (snd (report env net tsv)).
  split; [now rewrite Hids; cbn [option_map]; rewrite S|].
  rewrite (handler_fetches event env net Q C), N.
  rewrite (report_calls env net tsv _ _ ids P0 Hids A). cbn [fullMsgs].
  rewrite S, expectedCalls_cons. cbn [shiftOr fst snd].
  now rewrite expectedCalls_nil.
Qed.

Lemma header_only_without_entrants_witness :
  exists out,
    handler (withSecret (Some (lit "s3"))) (sampleEnv (Some (lit "s3")))
      (replying (sampleSheet [lit "  "; []]))
    = ([Get (lit "https://sheet/tsv");
        Patch (lit "https://hook/messages/11") (header (Int 1717200000));
        Patch (lit "https://hook/messages/22") (lit "-");
        Patch (lit "https://hook/messages/33") (lit "-")], out).
Proof.
  assert (P : parsePhase (sampleSheet [lit "  "; []])
              = Ok (Int 1717200000,
                    {| fullMsgs := [header (Int 1717200000)];
                       fullMsg := header (Int 1717200000);
                       numPlayers := 0 |}))
    by (vm_compute; reflexivity).
  destruct (header_only_without_entrants _ _ _ P) as [_ H].
  destruct (H eq_refl) as (_ & _ & K).
  destruct (K (withSecret (Some (lit "s3"))) (sampleEnv (Some (lit "s3")))
              (replying (sampleSheet [lit "  "; []]))
              eq_refl eq_refl eq_refl (answering_replying _))
    as (msgId & rest & out & I & E).
  exists out. injection I as <- <-. exact E.
Defined.

(** ** The secret *)

Lemma handler_never_400_after_gate event env net body :
  querySecret event = env "VOTER_REGISTRATION_SECRET"%string ->
  snd (handler event env net) <> Response 400 body.
Proof.
  intros Q. unfold handler. apply strictEq_eq in Q. rewrite Q. cbn [negb].
  destruct (checkEnv env requiredEnv); [cbn; discriminate|].
  destruct (net O) as [tsv|e]; [|cbn; discriminate].
  destruct (report env net tsv) as [calls out] eqn:R. cbn [snd].
  intros ->. apply report_response in R as (_ & _ & _ & _ & R & _).
  discriminate.
Qed.

(** C9.  When the configured secret is unset and the request has no
    secret parameter, the two compare equal: the request is not answered
    with status 400, and with the three checked variables set the handler
    goes on to fetch the roster.  The secret is not among the variables
    the configuration check looks at. *)
Theorem unset_secret_admits_bare_request event env net :
  querySecret event = None ->
  env "VOTER_REGISTRATION_SECRET"%string = None ->
  (forall body, snd (handler event env net) <> Response 400 body)
  /\ (falsy (env "VOTER_REGISTRATION_TSV_URL"%string) = false ->
      falsy (env "VOTER_REGISTRATION_WEBHOOK_URL"%string) = false ->
      falsy (env "VOTER_REGISTRATION_MSG_IDS"%string) = false ->
      exists calls,
        fst (handler event env net)
        = Get (coerce (env "VOTER_REGISTRATION_TSV_URL"%string)) :: calls)
  /\ ~ In "VOTER_REGISTRATION_SECRET"%string requiredEnv.
Proof.
  intros Q S.
  assert (E : querySecret event = env "VOTER_REGISTRATION_SECRET"%string)
    by now rewrite Q, S.
  repeat split.
  - intros body. now apply handler_never_400_after_gate.
  - intros T W M.
    assert (C : checkEnv env requiredEnv = None).
    { apply checkEnv_none. intros n [<-|[<-|[<-|[]]]]; assumption. }
    rewrite (handler_fetches event env net E C).
    destruct (net O); eexists; reflexivity.
  - cbn. intros [H|[H|[H|[]]]]; discriminate.
Qed.

Lemma unset_secret_admits_bare_request_witness :
  exists calls,
    fst (handler bareRequest (sampleEnv None) (replying (sampleSheet [alice])))
    = Get (lit "https://sheet/tsv") :: calls.
Proof.
  destruct (unset_secret_admits_bare_request bareRequest (sampleEnv None)
              (replying (sampleSheet [alice])) eq_refl eq_refl)
    as (_ & H & _).
  exact (H eq_refl eq_refl eq_refl).
Defined.

(** C6 fails when the configured secret is unset: a request without the
    parameter is served in full. *)
Theorem absent_secret_served_when_unset :
  handler (withSecret None) (sampleEnv None) (replying (sampleSheet []))
  = ([Get (lit "https://sheet/tsv");
      Patch (lit "https://hook/messages/11") (header (Int 1717200000));
      Patch (lit "https://hook/messages/22") (lit "-");
      Patch (lit "https://hook/messages/33") (lit "-")],
     Response 200
       (lit "Last updated: 2024-06-01T00:00:00.000Z" ++ nl ++ lit "Players: 0")).
Proof. vm_compute. reflexivity. Qed.

(** C7 fails for the secret: unset, or set to the empty string and
    matched by an empty parameter, it is not reported as missing and the
    roster is fetched. *)
Theorem missing_secret_not_reported :
  (exists calls body,
     handler bareRequest (sampleEnv None) (replying (sampleSheet [alice]))
     = (Get (lit "https://sheet/tsv") :: calls, Response 200 body))
  /\ (exists calls body,
        handler (withSecret (Some [])) (sampleEnv (Some []))
          (replying (sampleSheet [alice]))
        = (Get (lit "https://sheet/tsv") :: calls, Response 200 body)).
Proof. split; eexists; eexists; vm_compute; reflexivity. Qed.

(** ** The scenario of the specification *)

(** As of 1 June 2024: Alice is active, Bob upcoming, Carl expired for
    more than 31 days and left out, all three counted. *)
Example scenario_alice_bob_carl :
  handler (withSecret (Some (lit "s3"))) (sampleEnv (Some (lit "s3")))
    (replying (sampleSheet [alice; bob; carl]))
  = ([Get (lit "https://sheet/tsv");
      Patch (lit "https://hook/messages/11")
        (header (Int 1717200000) ++ nl
         ++ lit "**Alice** (valid through <t:1719792000:D>)" ++ nl
         ++ lit "*~~Bob~~ (begins <t:1719792000:D>) (valid through <t:1722470400:D>)*");
      Patch (lit "https://hook/messages/22") (lit "-");
      Patch (lit "https://hook/messages/33") (lit "-")],
     Response 200
       (lit "Last updated: 2024-06-01T00:00:00.000Z" ++ nl ++ lit "Players: 3")).
Proof. vm_compute. reflexivity. Qed.

(** A request with a wrong secret, and one without any, against a
    configured secret. *)
Example scenario_wrong_secret :
  handler (withSecret (Some (lit "S3"))) (sampleEnv (Some (lit "s3")))
    (replying (sampleSheet []))
  = ([], Response 400 (lit "Invalid secret"))
  /\ handler (withSecret None) (sampleEnv (Some (lit "s3")))
       (replying (sampleSheet []))
     = ([], Response 400 (lit "Invalid secret")).
Proof. split; reflexivity. Qed.

(** * Further properties *)

(** ** parseDateStr *)

Lemma parseDateStr_value s :
  parseDateStr (Some s)
  = Ok (floor_div_1000
          (Date_UTC (ToNumber (nth_error (split slash (trim s)) 2))
             (fsub (ToNumber (nth_error (split slash (trim s)) 1)) (fFin 1 1))
             (ToNumber (nth_error (split slash (trim s)) 0)))).
Proof. reflexivity. Qed.

Lemma Date_UTC_whole_days y m d v :
  Date_UTC y m d = Int v -> v mod msPerDay = 0 /\ Z.abs v <= maxTime.
Proof.
  unfold Date_UTC. destruct (MakeDay (MakeFullYear y) m d) as [|n]; cbn;
    [discriminate|].
  destruct (Z.ltb_spec maxTime (Z.abs (n * msPerDay + 0))); [discriminate|].
  intros E. injection E as <-. split; [|assumption].
  rewrite Z.add_0_r. apply Z.mod_mul. unfold msPerDay. lia.
Qed.

Lemma parseDateStr_seconds s :
  parseDateStr (Some s) = Ok NaN
  \/ exists t,
       parseDateStr (Some s) = Ok (Int t)
       /\ t mod 86400 = 0 /\ Z.abs t <= 8640000000000.
Proof.
  rewrite parseDateStr_value.
  destruct (Date_UTC _ _ _) as [|v] eqn:E; [now left|right].
  apply Date_UTC_whole_days in E as [M B].
  exists (v / 1000). split; [reflexivity|].
  unfold msPerDay, maxTime in *.
  Z.to_euclidean_division_equations; lia.
Qed.

(** X1.  On any string [parseDateStr] returns, without throwing, either
    NaN or a whole number of days in seconds, at most 8640000000000 in
    absolute value. *)
Theorem parseDateStr_whole_days s :
  parseDateStr (Some s) = Ok NaN
  \/ exists t,
       parseDateStr (Some s) = Ok (Int t)
       /\ t mod 86400 = 0 /\ Z.abs t <= 8640000000000.
Proof. exact (parseDateStr_seconds s). Qed.

(** X23.  The parts of a date cell are read with unary [+] and handed to
    [Date.UTC], so they need not be plain digits: a year in hexadecimal
    is read as such, a fractional day is truncated, an exponent is
    applied, and a month past the engine's range of ten million gives
    NaN where the calendar arithmetic alone would give 1 January 2024. *)
Theorem parseDateStr_unusual_parts :
  parseDateStr (Some (lit "01/01/0x7E8")) = Ok (Int 1704067200)
  /\ parseDateStr (Some (lit "1.5/01/2024")) = Ok (Int 1704067200)
  /\ parseDateStr (Some (lit "01/01/2.024e3")) = Ok (Int 1704067200)
  /\ parseDateStr (Some (lit "01/12000001/-997976")) = Ok NaN.
Proof. vm_compute. repeat split. Qed.

(** X2.  A date cell with fewer than three slash-separated parts parses
    to NaN. *)
Theorem parseDateStr_too_few_parts s :
  (length (split slash (trim s)) < 3)%nat -> parseDateStr (Some s) = Ok NaN.
Proof.
  intros L. rewrite parseDateStr_value.
  assert (N : nth_error (split slash (trim s)) 2 = None)
    by (apply nth_error_None; lia).
  rewrite N. reflexivity.
Qed.

Lemma parseDateStr_too_few_parts_witness :
  parseDateStr (Some (lit "06/2024")) = Ok NaN.
Proof. apply parseDateStr_too_few_parts. vm_compute. lia. Defined.

Lemma monthStart_mono leap m1 m2 :
  0 <= leap <= 1 -> 0 <= m1 -> m1 <= m2 -> m2 <= 12 ->
  monthStart leap m1 <= monthStart leap m2.
Proof.
  intros L A B C.
  assert (D : exists k, m2 = m1 + Z.of_nat k)
    by (exists (Z.to_nat (m2 - m1)); lia).
  destruct D as (k & ->). clear B.
  induction k as [|k IH]; [rewrite Z.add_0_r; lia|].
  rewrite Nat2Z.inj_succ in *.
  pose proof (monthStart_range leap (m1 + Z.succ (Z.of_nat k)) L ltac:(lia)) as R.
  replace (m1 + Z.succ (Z.of_nat k) - 1) with (m1 + Z.of_nat k) in R by lia.
  specialize (IH ltac:(lia)). lia.
Qed.

Lemma parseDateStr_ten d1 d2 m1 m2 y1 y2 y3 y4 :
  forallb isDigit [d1; d2; m1; m2; y1; y2; y3; y4] = true ->
  100 <= digitsNumber [y1; y2; y3; y4] ->
  1 <= digitsNumber [m1; m2] <= 12 ->
  parseDateStr (Some [d1; d2; slash; m1; m2; slash; y1; y2; y3; y4])
  = Ok (Int (dayNumber (digitsNumber [y1; y2; y3; y4]) (digitsNumber [m1; m2])
               (digitsNumber [d1; d2]) * 86400)).
Proof.
  intros F Hy Hm. cbn [forallb] in F. rewrite !andb_true_iff in F.
  destruct F as (D1 & D2 & M1 & M2 & Y1 & Y2 & Y3 & Y4 & _).
  pose proof (digitsNumber_four _ _ _ _ Y1 Y2 Y3 Y4).
  pose proof (digitsNumber_two _ _ D1 D2).
  change [d1; d2; slash; m1; m2; slash; y1; y2; y3; y4]
    with ([d1; d2] ++ slash :: [m1; m2] ++ slash :: [y1; y2; y3; y4]).
  rewrite parseDateStr_digits;
    try discriminate;
    try (cbn [forallb];
         rewrite ?D1, ?D2, ?M1, ?M2, ?Y1, ?Y2, ?Y3, ?Y4; reflexivity);
    try lia.
  rewrite Date_UTC_any_day by lia.
  unfold floor_div_1000, msPerDay. do 2 f_equal.
  Z.to_euclidean_division_equations; lia.
Qed.

Lemma readDateStr_shape s y m d :
  readDateStr s = Some (y, m, d) ->
  exists d1 d2 m1 m2 y1 y2 y3 y4,
    s = [d1; d2; slash; m1; m2; slash; y1; y2; y3; y4]
    /\ forallb isDigit [d1; d2; m1; m2; y1; y2; y3; y4] = true
    /\ y = digitsNumber [y1; y2; y3; y4]
    /\ m = digitsNumber [m1; m2]
    /\ d = digitsNumber [d1; d2]
    /\ validDate y m d = true.
Proof.
  unfold readDateStr. intros R.
  destruct s as [|d1 [|d2 [|s1 [|m1 [|m2 [|s2 [|y1 [|y2 [|y3 [|y4 [|]]]]]]]]]]];
    try discriminate.
  destruct (forallb isDigit [d1; d2; m1; m2; y1; y2; y3; y4]
            && (s1 =? slash)%N && (s2 =? slash)%N) eqn:F; [|discriminate].
  destruct (validDate _ _ _) eqn:V; [|discriminate].
  injection R as Ey Em Ed.
  apply andb_true_iff in F as [F S2]. apply andb_true_iff in F as [F S1].
  apply N.eqb_eq in S1, S2. subst s1 s2.
  exists d1, d2, m1, m2, y1, y2, y3, y4.
  rewrite <- Ey, <- Em, <- Ed. repeat split; assumption.
Qed.

Lemma parseDateStr_valid s y m d :
  readDateStr s = Some (y, m, d) -> 100 <= y ->
  parseDateStr (Some s) = Ok (Int (dayNumber y m d * 86400)).
Proof.
  intros R Hy.
  apply readDateStr_shape in R
    as (d1 & d2 & m1 & m2 & y1 & y2 & y3 & y4 & -> & F & -> & -> & -> & V).
  apply parseDateStr_ten; [assumption | assumption |].
  apply validDate_within in V. lia.
Qed.

Lemma dayNumber_before y1 m1 d1 y2 m2 d2 :
  validDate y1 m1 d1 = true -> validDate y2 m2 d2 = true ->
  dateBefore (y1, m1, d1) (y2, m2, d2) ->
  dayNumber y1 m1 d1 < dayNumber y2 m2 d2.
Proof.
  intros V1 V2 B.
  pose proof (validDate_within _ _ _ V1) as (M1 & W1 & L1).
  pose proof (validDate_within _ _ _ V2) as (M2 & W2 & L2).
  cbn in B. destruct B as [Y|[-> [M|[-> D]]]].
  - pose proof (DayFromYear_mono (y1 + 1) y2 ltac:(lia)).
    rewrite DayFromYear_succ in *.
    pose proof (monthStart_range (InLeapYear y2) m2 (InLeapYear_range y2) M2).
    lia.
  - pose proof (monthStart_mono (InLeapYear y2) m1 (m2 - 1)
                  (InLeapYear_range y2) ltac:(lia) ltac:(lia) ltac:(lia)).
    lia.
  - unfold dayNumber. lia.
Qed.

(** X3.  On valid DD/MM/YYYY strings from year 0100 on, [parseDateStr]
    keeps the order of the calendar: one timestamp is smaller than the
    other exactly when its date is the earlier one. *)
Theorem parseDateStr_monotone s1 s2 y1 m1 d1 y2 m2 d2 :
  readDateStr s1 = Some (y1, m1, d1) -> 100 <= y1 ->
  readDateStr s2 = Some (y2, m2, d2) -> 100 <= y2 ->
  exists t1 t2,
    parseDateStr (Some s1) = Ok (Int t1)
    /\ parseDateStr (Some s2) = Ok (Int t2)
    /\ (t1 < t2 <-> dateBefore (y1, m1, d1) (y2, m2, d2)).
Proof.
  intros R1 H1 R2 H2.
  exists (dayNumber y1 m1 d1 * 86400), (dayNumber y2 m2 d2 * 86400).
  split; [now apply parseDateStr_valid|]. split; [now apply parseDateStr_valid|].
  apply readDateStr_shape in R1 as (? & ? & ? & ? & ? & ? & ? & ? & _ & _ & _ & _ & _ & V1).
  apply readDateStr_shape in R2 as (? & ? & ? & ? & ? & ? & ? & ? & _ & _ & _ & _ & _ & V2).
  split.
  - intros L.
    assert (T : dateBefore (y1, m1, d1) (y2, m2, d2)
                \/ (y1, m1, d1) = (y2, m2, d2)
                \/ dateBefore (y2, m2, d2) (y1, m1, d1)).
    { cbn. destruct (Z.lt_trichotomy y1 y2) as [|[->|]]; [tauto| |tauto].
      destruct (Z.lt_trichotomy m1 m2) as [|[->|]]; [tauto| |tauto].
      destruct (Z.lt_trichotomy d1 d2) as [|[->|]]; tauto. }
    destruct T as [T|[T|T]]; [exact T | |].
    + injection T as -> -> ->. lia.
    + pose proof (dayNumber_before _ _ _ _ _ _ V2 V1 T). lia.
  - intros B. pose proof (dayNumber_before _ _ _ _ _ _ V1 V2 B). lia.
Qed.

Lemma parseDateStr_monotone_witness :
  exists t1 t2,
    parseDateStr (Some (lit "29/02/2024")) = Ok (Int t1)
    /\ parseDateStr (Some (lit "01/03/2024")) = Ok (Int t2)
    /\ (t1 < t2 <-> dateBefore (2024, 2, 29) (2024, 3, 1)).
Proof.
  apply (parseDateStr_monotone (lit "29/02/2024") (lit "01/03/2024"));
    try (vm_compute; reflexivity); lia.
Defined.

(** X4.  A day number that the month does not have is not rejected: the
    timestamp is that of the first of the month plus the days counted on,
    so 31/02 is 2 or 3 March. *)
Theorem parseDateStr_day_runs_on d1 d2 m1 m2 y1 y2 y3 y4 :
  forallb isDigit [d1; d2; m1; m2; y1; y2; y3; y4] = true ->
  100 <= digitsNumber [y1; y2; y3; y4] ->
  1 <= digitsNumber [m1; m2] <= 12 ->
  exists first,
    parseDateStr (Some [48; 49; slash; m1; m2; slash; y1; y2; y3; y4]%N)
    = Ok (Int first)
    /\ parseDateStr (Some [d1; d2; slash; m1; m2; slash; y1; y2; y3; y4])
       = Ok (Int (first + 86400 * (digitsNumber [d1; d2] - 1))).
Proof.
  intros F Hy Hm.
  assert (F1 : forallb isDigit [48; 49; m1; m2; y1; y2; y3; y4]%N = true).
  { cbn [forallb] in *. rewrite !andb_true_iff in *. tauto. }
  eexists. split; [apply (parseDateStr_ten _ _ _ _ _ _ _ _ F1 Hy Hm)|].
  rewrite (parseDateStr_ten _ _ _ _ _ _ _ _ F Hy Hm).
  do 2 f_equal. unfold dayNumber.
  change (digitsNumber [48%N; 49%N]) with 1. lia.
Qed.

Lemma parseDateStr_day_runs_on_witness :
  parseDateStr (Some (lit "31/02/2024")) = parseDateStr (Some (lit "02/03/2024")).
Proof.
  destruct (parseDateStr_day_runs_on 51 49 48 50 50 48 50 52
              eq_refl ltac:(vm_compute; discriminate)
              ltac:(split; vm_compute; discriminate))
    as (first & E1 & E2).
  change (parseDateStr (Some (lit "31/02/2024"))
          = parseDateStr (Some (lit "02/03/2024"))).
  etransitivity; [exact E2|].
  vm_compute in E1. injection E1 as <-. vm_compute. reflexivity.
Defined.

(** ** escapeRaw *)

(** X5.  Escaping loses nothing: dropping the escaping backslashes gives
    the name back, so different names have different escaped forms. *)
Theorem escapeRaw_roundtrip s : unescapeRaw (escapeRaw s) = s.
Proof.
  induction s as [|c s IH]; [reflexivity|].
  unfold escapeRaw in *. cbn [flat_map].
  destruct (isFormattingChar c) eqn:F; cbn [app unescapeRaw].
  - cbn. now rewrite IH.
  - assert (N : (c =? 92)%N = false).
    { unfold isFormattingChar in F. rewrite !orb_false_iff in F. tauto. }
    now rewrite N, IH.
Qed.

(** X6.  The escaped name is longer than the name by one character for
    each of the characters _ ~ * ` and backslash in it, and equal to the
    name when there is none. *)
Theorem escapeRaw_length s :
  length (escapeRaw s) = (length s + length (filter isFormattingChar s))%nat
  /\ (filter isFormattingChar s = [] -> escapeRaw s = s).
Proof.
  unfold escapeRaw. induction s as [|c s [IH1 IH2]]; [now split|].
  cbn [flat_map filter]. rewrite length_app, IH1.
  destruct (isFormattingChar c); cbn [length app]; split; try lia;
    try discriminate.
  intros E. now rewrite (IH2 E).
Qed.

(** ** The packer keeps every line, in order *)

Lemma joinWith_snoc_two sep (l : list jsstring) a b :
  joinWith sep (l ++ [a; b]) = joinWith sep (l ++ [a]) ++ sep ++ b.
Proof.
  induction l as [|x l IH]; [reflexivity|].
  cbn [app]. change (joinWith sep (x :: l ++ [a; b]))
    with (match l ++ [a; b] with
          | [] => x
          | _ => x ++ sep ++ joinWith sep (l ++ [a; b])
          end).
  change (joinWith sep (x :: l ++ [a]))
    with (match l ++ [a] with
          | [] => x
          | _ => x ++ sep ++ joinWith sep (l ++ [a])
          end).
  rewrite IH. destruct l; cbn [app]; now rewrite <- !app_assoc.
Qed.

Lemma joinWith_snoc_grown sep (l : list jsstring) a b :
  joinWith sep (l ++ [a ++ sep ++ b]) = joinWith sep (l ++ [a]) ++ sep ++ b.
Proof.
  induction l as [|x l IH]; [reflexivity|].
  cbn [app]. change (joinWith sep (x :: l ++ [a ++ sep ++ b]))
    with (match l ++ [a ++ sep ++ b] with
          | [] => x
          | _ => x ++ sep ++ joinWith sep (l ++ [a ++ sep ++ b])
          end).
  change (joinWith sep (x :: l ++ [a]))
    with (match l ++ [a] with
          | [] => x
          | _ => x ++ sep ++ joinWith sep (l ++ [a])
          end).
  rewrite IH. destruct l; cbn [app]; now rewrite <- !app_assoc.
Qed.

Lemma joinWith_cons_app sep a (l1 l2 : list jsstring) :
  joinWith sep (a :: l1 ++ l2)
  = joinWith sep (a :: l1) ++ flat_map (fun x => sep ++ x) l2.
Proof.
  revert a. induction l1 as [|x l1 IH]; intros a.
  - cbn [app]. revert a. induction l2 as [|y l2 IH2]; intros a.
    + cbn. now rewrite app_nil_r.
    + change (joinWith sep (a :: y :: l2)) with (a ++ sep ++ joinWith sep (y :: l2)).
      rewrite IH2. cbn [flat_map joinWith]. now rewrite <- !app_assoc.
  - cbn [app].
    change (joinWith sep (a :: x :: l1 ++ l2))
      with (a ++ sep ++ joinWith sep (x :: l1 ++ l2)).
    change (joinWith sep (a :: x :: l1)) with (a ++ sep ++ joinWith sep (x :: l1)).
    rewrite IH. now rewrite <- !app_assoc.
Qed.

Lemma addLine_joined st validSec expireSec asOf name :
  let line := displayLine asOf validSec expireSec name in
  joinWith nl (fullMsgs (addLine st line) ++ [fullMsg (addLine st line)])
  = joinWith nl (fullMsgs st ++ [fullMsg st]) ++ nl ++ line.
Proof.
  intros line. unfold addLine.
  destruct (length (fullMsg st ++ line) <? 2000)%nat; cbn [fullMsgs fullMsg].
  - apply joinWith_snoc_grown.
  - unfold line. rewrite displayLine_trim, <- app_assoc. cbn [app].
    apply joinWith_snoc_two.
Qed.

Lemma processRow_effect asOf st tsvLine st' :
  processRow asOf st tsvLine = Ok st' ->
  joinWith nl (fullMsgs st' ++ [fullMsg st'])
  = joinWith nl (fullMsgs st ++ [fullMsg st])
    ++ flat_map (fun l => nl ++ l) (shownLine asOf tsvLine)
  /\ numPlayers st' = numPlayers st + Z.of_nat (length (playerRows [tsvLine])).
Proof.
  unfold shownLine, entrant, playerRows. cbn [filter].
  destruct (blank tsvLine) eqn:B.
  - rewrite (processRow_blank asOf st tsvLine B). intros E. injection E as <-.
    cbn. rewrite app_nil_r. split; [reflexivity | lia].
  - cbn [negb length].
    destruct (nth_error (split tab tsvLine) 1) as [tag|] eqn:T.
    + destruct (parseDateStr (nth_error (split tab tsvLine) 2)) as [v|] eqn:V.
      * destruct (parseDateStr (nth_error (split tab tsvLine) 3)) as [e|] eqn:E.
        -- rewrite (processRow_entrant asOf st tsvLine tag v e B T V E).
           destruct (tooOld asOf e); intros H; injection H as <-.
           ++ cbn. rewrite app_nil_r. split; [reflexivity | lia].
           ++ rewrite addLine_joined. cbn [flat_map]. rewrite app_nil_r.
              split; [reflexivity|]. unfold addLine.
              destruct (_ <? _)%nat; cbn; lia.
        -- unfold processRow. unfold blank in B. rewrite B.
           destruct (split_nonempty tab tsvLine) as (h & t & S). rewrite S in *.
           cbn [nth_error receiver bind] in *. rewrite T, V, E. discriminate.
      * unfold processRow. unfold blank in B. rewrite B.
        destruct (split_nonempty tab tsvLine) as (h & t & S). rewrite S in *.
        cbn [nth_error receiver bind] in *. rewrite T, V. discriminate.
    + unfold processRow. unfold blank in B. rewrite B.
      destruct (split_nonempty tab tsvLine) as (h & t & S). rewrite S in *.
      cbn [nth_error receiver bind] in *. rewrite T. discriminate.
Qed.

Lemma forEach_effect asOf rows : forall st st',
  forEach (processRow asOf) rows st = Ok st' ->
  joinWith nl (fullMsgs st' ++ [fullMsg st'])
  = joinWith nl (fullMsgs st ++ [fullMsg st])
    ++ flat_map (fun l => nl ++ l) (flat_map (shownLine asOf) rows)
  /\ numPlayers st' = numPlayers st + Z.of_nat (length (playerRows rows)).
Proof.
  induction rows as [|r rows IH]; intros st st'; cbn [forEach].
  - intros E. injection E as <-. cbn. rewrite app_nil_r. split; [reflexivity|lia].
  - destruct (processRow asOf st r) as [s1|] eqn:P; [|discriminate].
    cbn [bind]. intros E.
    destruct (processRow_effect asOf st r s1 P) as [J1 N1].
    destruct (IH s1 st' E) as [J2 N2].
    split.
    + rewrite J2, J1. cbn [flat_map]. now rewrite flat_map_app, <- app_assoc.
    + rewrite N2, N1. unfold playerRows. cbn [filter].
      destruct (negb (blank r)); cbn [length]; lia.
Qed.

(** X7.  Packing loses no line and keeps the order: the blocks, joined
    with newlines, are the header followed by the lines of the shown
    rows, one per row, in the order of the sheet. *)
Theorem blocks_join_to_report tsv asOf st :
  parsePhase tsv = Ok (asOf, st) ->
  joinWith nl (fullMsgs st)
  = joinWith nl
      (header asOf
       :: flat_map (shownLine asOf) (slice tsvSkipRows (split 10%N tsv))).
Proof.
  intros P. apply parsePhase_inv in P as (row1 & st0 & _ & _ & L & ->).
  cbn [fullMsgs]. unfold rowLoop in L.
  destruct (forEach_effect asOf _ _ _ L) as [J _]. rewrite J.
  unfold startState. cbn [fullMsgs fullMsg app].
  change (header asOf :: flat_map (shownLine asOf) (slice tsvSkipRows (split 10%N tsv)))
    with (header asOf :: [] ++ flat_map (shownLine asOf) (slice tsvSkipRows (split 10%N tsv))).
  now rewrite joinWith_cons_app.
Qed.

Lemma blocks_join_to_report_witness :
  exists st,
    parsePhase tightSheet = Ok (Int 1717200000, st)
    /\ joinWith nl (fullMsgs st)
       = joinWith nl
           (header (Int 1717200000)
            :: flat_map (shownLine (Int 1717200000))
                 (slice tsvSkipRows (split 10%N tightSheet))).
Proof.
  eexists. split; [vm_compute; reflexivity|].
  apply (blocks_join_to_report tightSheet). vm_compute. reflexivity.
Defined.

(** X8.  The player count is the number of rows after the first two that
    are not blank, shown or not. *)
Theorem players_are_nonblank_rows tsv asOf st :
  parsePhase tsv = Ok (asOf, st) ->
  numPlayers st
  = Z.of_nat (length (playerRows (slice tsvSkipRows (split 10%N tsv)))).
Proof.
  intros P. apply parsePhase_inv in P as (row1 & st0 & _ & _ & L & ->).
  cbn [numPlayers]. unfold rowLoop in L.
  destruct (forEach_effect asOf _ _ _ L) as [_ N]. rewrite N. reflexivity.
Qed.

Lemma players_are_nonblank_rows_witness :
  exists st,
    parsePhase (sampleSheet [alice; []; carl; lit "  "; bob])
    = Ok (Int 1717200000, st)
    /\ numPlayers st = 3.
Proof.
  eexists. split; [vm_compute; reflexivity|].
  rewrite (players_are_nonblank_rows
             (sampleSheet [alice; []; carl; lit "  "; bob]) (Int 1717200000))
    by (vm_compute; reflexivity).
  vm_compute. reflexivity.
Defined.

(** ** What the parse ignores *)

Lemma split_app_sep sep a b :
  split sep (a ++ sep :: b) = split sep a ++ split sep b.
Proof.
  induction a as [|c r IH]; cbn [app split].
  - now rewrite N.eqb_refl.
  - rewrite IH. destruct (c =? sep)%N; [reflexivity|].
    now destruct (split_nonempty sep r) as (h & t & ->).
Qed.

Lemma split_snoc sep s c :
  (c =? sep)%N = false ->
  exists fs f,
    split sep s = fs ++ [f] /\ split sep (s ++ [c]) = fs ++ [f ++ [c]].
Proof.
  intros C. induction s as [|x r (fs & f & E1 & E2)]; cbn [app split].
  - rewrite C. now exists [], [].
  - rewrite E1, E2. destruct (x =? sep)%N.
    + now exists ([] :: fs), f.
    + destruct fs as [|g fs]; cbn [app].
      * now exists [], (x :: f).
      * now exists ((x :: g) :: fs), f.
Qed.

Lemma trimStart_all_space s :
  forallb isStrWhiteSpaceChar s = true -> trimStart s = [].
Proof.
  induction s as [|c r IH]; cbn; [reflexivity|].
  rewrite andb_true_iff. intros [-> H]. now apply IH.
Qed.

Lemma trimStart_app s t :
  forallb isStrWhiteSpaceChar s = false -> trimStart (s ++ t) = trimStart s ++ t.
Proof.
  induction s as [|c r IH]; cbn; [discriminate|].
  destruct (isStrWhiteSpaceChar c); cbn; [apply IH | reflexivity].
Qed.

Lemma trimStart_keeps s :
  forallb isStrWhiteSpaceChar s = false ->
  forallb isStrWhiteSpaceChar (trimStart s) = false.
Proof.
  induction s as [|c r IH]; cbn; [discriminate|].
  destruct (isStrWhiteSpaceChar c) eqn:W; cbn; [apply IH|].
  now rewrite W.
Qed.

Lemma trimStart_nonempty s :
  forallb isStrWhiteSpaceChar s = false -> trimStart s <> [].
Proof.
  intros H E. apply trimStart_keeps in H. rewrite E in H. discriminate.
Qed.

Lemma blank_all_space s : blank s = forallb isStrWhiteSpaceChar s.
Proof.
  unfold blank, trim, trimEnd.
  destruct (forallb isStrWhiteSpaceChar s) eqn:A.
  - now rewrite (trimStart_all_space s A).
  - pose proof (trimStart_keeps s A) as K.
    assert (R : forallb isStrWhiteSpaceChar (rev (trimStart s)) = false)
      by now rewrite forallb_rev.
    pose proof (trimStart_nonempty _ R) as N.
    destruct (trimStart (rev (trimStart s))) as [|c r] eqn:E; [contradiction|].
    cbn [rev]. now destruct (rev r).
Qed.

Lemma trim_trailing_space s c :
  isStrWhiteSpaceChar c = true -> trim (s ++ [c]) = trim s.
Proof.
  intros W. unfold trim.
  destruct (forallb isStrWhiteSpaceChar s) eqn:A.
  - rewrite (trimStart_all_space s A), trimStart_all_space; [reflexivity|].
    rewrite forallb_app, A. cbn. now rewrite W.
  - rewrite (trimStart_app s [c] A). unfold trimEnd.
    rewrite rev_app_distr. cbn [rev app trimStart]. now rewrite W.
Qed.

Lemma parseDateStr_trimmed a b :
  option_map trim a = option_map trim b -> parseDateStr a = parseDateStr b.
Proof.
  destruct a as [x|], b as [y|]; cbn [option_map]; intros H;
    try discriminate; [|reflexivity].
  injection H as H. unfold parseDateStr. cbn [receiver bind]. now rewrite H.
Qed.

Lemma fields_trailing_space (fs : list jsstring) f c i :
  isStrWhiteSpaceChar c = true ->
  option_map trim (nth_error (fs ++ [f ++ [c]]) i)
  = option_map trim (nth_error (fs ++ [f]) i).
Proof.
  intros W. revert i. induction fs as [|g fs IH]; intros [|i]; cbn [app nth_error].
  - cbn. now rewrite trim_trailing_space.
  - now destruct i.
  - reflexivity.
  - apply IH.
Qed.

Lemma processRow_by_fields asOf st r1 r2 :
  blank r1 = blank r2 ->
  (forall i, (i < 4)%nat ->
             option_map trim (nth_error (split tab r1) i)
             = option_map trim (nth_error (split tab r2) i)) ->
  processRow asOf st r1 = processRow asOf st r2.
Proof.
  intros B F. unfold processRow. unfold blank in B.
  apply (f_equal negb) in B. rewrite !negb_involutive in B. rewrite B.
  destruct (negb (truthy (trim r2))); [reflexivity|].
  pose proof (F 0%nat ltac:(lia)) as F0. pose proof (F 1%nat ltac:(lia)) as F1.
  rewrite (parseDateStr_trimmed _ _ (F 2%nat ltac:(lia))),
          (parseDateStr_trimmed _ _ (F 3%nat ltac:(lia))).
  destruct (nth_error (split tab r1) 0) as [a0|],
           (nth_error (split tab r2) 0) as [b0|];
    cbn [option_map] in F0; try discriminate; [|reflexivity].
  injection F0 as F0. cbn [receiver bind]. rewrite F0.
  destruct (nth_error (split tab r1) 1) as [a1|],
           (nth_error (split tab r2) 1) as [b1|];
    cbn [option_map] in F1; try discriminate; reflexivity.
Qed.

(** X9.  White space at the end of a row, such as the carriage return of
    a CRLF line ending, changes nothing (a tab is a column separator and
    is not meant). *)
Theorem processRow_trailing_space asOf st tsvLine w :
  forallb (fun c => isStrWhiteSpaceChar c && negb (c =? tab)%N) w = true ->
  processRow asOf st (tsvLine ++ w) = processRow asOf st tsvLine.
Proof.
  revert tsvLine. induction w as [|c w IH]; intros tsvLine H.
  - now rewrite app_nil_r.
  - cbn [forallb] in H. apply andb_true_iff in H as [Hc Hw].
    apply andb_true_iff in Hc as [W T]. apply negb_true_iff in T.
    change (tsvLine ++ c :: w) with (tsvLine ++ [c] ++ w).
    rewrite app_assoc, (IH _ Hw).
    apply processRow_by_fields.
    + rewrite !blank_all_space, forallb_app. cbn. now rewrite W, !andb_true_r.
    + intros i _. destruct (split_snoc tab tsvLine c T) as (fs & f & -> & ->).
      now apply fields_trailing_space.
Qed.

Lemma processRow_trailing_space_witness :
  processRow (Int 1717200000) (startState (Int 1717200000)) (alice ++ [13%N])
  = processRow (Int 1717200000) (startState (Int 1717200000)) alice.
Proof. apply processRow_trailing_space. reflexivity. Defined.

(** X10.  Columns after the fourth are ignored: a row that is not blank
    and has its four fields is processed the same with any further
    columns added. *)
Theorem processRow_extra_columns asOf st tsvLine extra :
  blank tsvLine = false ->
  (4 <= length (split tab tsvLine))%nat ->
  processRow asOf st (tsvLine ++ tab :: extra) = processRow asOf st tsvLine.
Proof.
  intros B L. apply processRow_by_fields.
  - rewrite !blank_all_space in *. rewrite forallb_app, B. reflexivity.
  - intros i I. rewrite split_app_sep. now rewrite nth_error_app1 by lia.
Qed.

Lemma processRow_extra_columns_witness :
  processRow (Int 1717200000) (startState (Int 1717200000))
    (alice ++ tab :: lit "note")
  = processRow (Int 1717200000) (startState (Int 1717200000)) alice.
Proof.
  apply processRow_extra_columns; [reflexivity | vm_compute; lia].
Defined.

(** X11.  The first row is ignored whatever it holds: the report of a
    sheet is the report of the same sheet with its first row emptied. *)
Theorem first_row_ignored env net row0 rest :
  noNewline row0 = true ->
  report env net (row0 ++ 10%N :: rest) = report env net (10%N :: rest).
Proof.
  intros H. unfold report, parsePhase.
  rewrite (split_field 10%N row0 rest H).
  change (10%N :: rest) with ([] ++ 10%N :: rest).
  rewrite (split_field 10%N [] rest eq_refl). reflexivity.
Qed.

Lemma first_row_ignored_witness :
  report (sampleEnv None) (replying [])
    (lit "Voter roll" ++ 10%N :: lit "second row")
  = report (sampleEnv None) (replying []) (10%N :: lit "second row").
Proof. apply first_row_ignored. reflexivity. Defined.

(** ** The gates *)

(** X12.  The handler answers 400 exactly when the secret parameter and
    the configured secret differ, an absent one being equal only to an
    unset one; the comparison is exact, with no normalisation. *)
Theorem rejected_iff_secret_differs event env net :
  (exists body, snd (handler event env net) = Response 400 body)
  <-> querySecret event <> env "VOTER_REGISTRATION_SECRET"%string.
Proof.
  split.
  - intros (body & H) E. now apply (handler_never_400_after_gate event env net body E).
  - intros N. exists (lit "Invalid secret").
    now rewrite (handler_rejects_unequal_secret event env net N).
Qed.

(** X13.  With the secret matching, the first of the roster URL, the
    webhook URL and the message ids, in this order, that is unset or
    empty is named in a 500 response, and no outbound call is made. *)
Theorem first_missing_variable_named event env net :
  querySecret event = env "VOTER_REGISTRATION_SECRET"%string ->
  let missing name :=
    handler event env net
    = ([], Response 500 (lit "Missing environment variable " ++ envText name)) in
  (falsy (env "VOTER_REGISTRATION_TSV_URL"%string) = true ->
   missing "VOTER_REGISTRATION_TSV_URL"%string)
  /\ (falsy (env "VOTER_REGISTRATION_TSV_URL"%string) = false ->
      falsy (env "VOTER_REGISTRATION_WEBHOOK_URL"%string) = true ->
      missing "VOTER_REGISTRATION_WEBHOOK_URL"%string)
  /\ (falsy (env "VOTER_REGISTRATION_TSV_URL"%string) = false ->
      falsy (env "VOTER_REGISTRATION_WEBHOOK_URL"%string) = false ->
      falsy (env "VOTER_REGISTRATION_MSG_IDS"%string) = true ->
      missing "VOTER_REGISTRATION_MSG_IDS"%string).
Proof.
  intros Q missing. unfold missing, handler. apply strictEq_eq in Q.
  rewrite Q. cbn [negb checkEnv requiredEnv].
  repeat split.
  - now intros ->.
  - now intros -> ->.
  - now intros -> -> ->.
Qed.

Lemma first_missing_variable_named_witness :
  handler (withSecret (Some (lit "s3"))) noWebhookEnv (replying [])
  = ([], Response 500
           (lit "Missing environment variable "
            ++ envText "VOTER_REGISTRATION_WEBHOOK_URL"%string)).
Proof.
  exact (proj1 (proj2 (first_missing_variable_named
                         (withSecret (Some (lit "s3"))) noWebhookEnv
                         (replying []) eq_refl))
           eq_refl eq_refl).
Defined.

(** ** The calls and the outcome *)

Lemma publish_ok net webhook ids : forall blocks whRes sent calls r,
  publish net webhook ids blocks whRes sent = (calls, Ok r) ->
  calls = expectedCalls webhook ids blocks.
Proof.
  induction ids as [|msgId ids IH]; intros blocks whRes sent calls r.
  - cbn. intros E. now injection E as <- _.
  - cbn [publish]. rewrite expectedCalls_cons.
    destruct (shiftOr blocks) as [content queue]. cbn [fst snd].
    destruct (net sent) as [text|e]; [|discriminate].
    destruct (publish net webhook ids queue _ _) as [cs r'] eqn:P.
    intros E. injection E as <- ->. f_equal. eapply IH. exact P.
Qed.

Lemma report_answered env net tsv :
  answering net ->
  report env net tsv
  = match parsePhase tsv with
    | Throw e => ([], Uncaught e)
    | Ok (asOf, st) =>
        match env "VOTER_REGISTRATION_MSG_IDS"%string with
        | None => ([], Uncaught TypeError)
        | Some ids =>
            (expectedCalls (coerce (env "VOTER_REGISTRATION_WEBHOOK_URL"%string))
               (split space ids) (fullMsgs st),
             match successBody asOf (numPlayers st) with
             | Throw e => Uncaught e
             | Ok body => Response 200 body
             end)
        end
    end.
Proof.
  intros A. unfold report.
  destruct (parsePhase tsv) as [[asOf st]|]; [|reflexivity].
  destruct (env "VOTER_REGISTRATION_MSG_IDS"%string) as [ids|]; [|reflexivity].
  cbn [receiver].
  destruct (publish_answered net
              (coerce (env "VOTER_REGISTRATION_WEBHOOK_URL"%string))
              (split space ids) A (fullMsgs st) [] 1%nat) as (r & ->).
  now destruct (successBody asOf (numPlayers st)).
Qed.

(** X14.  A response other than 200 is given without any outbound call;
    a 200 response means that the roster was fetched and parsed and that
    every message id got its update. *)
Theorem response_tells_calls event env net calls code body :
  handler event env net = (calls, Response code body) ->
  (calls = [] /\ (code = 400 \/ code = 500))
  \/ (code = 200
      /\ exists tsv asOf st ids,
           net O = Ok tsv
           /\ parsePhase tsv = Ok (asOf, st)
           /\ env "VOTER_REGISTRATION_MSG_IDS"%string = Some ids
           /\ calls
              = Get (coerce (env "VOTER_REGISTRATION_TSV_URL"%string))
                :: expectedCalls
                     (coerce (env "VOTER_REGISTRATION_WEBHOOK_URL"%string))
                     (split space ids) (fullMsgs st)).
Proof.
  unfold handler.
  destruct (negb (strictEq _ _)).
  { intros E. injection E as <- <- _. left. auto. }
  destruct (checkEnv env requiredEnv).
  { intros E. injection E as <- <- _. left. auto. }
  destruct (net O) as [tsv|e] eqn:N; [|discriminate].
  unfold report.
  destruct (parsePhase tsv) as [[asOf st]|] eqn:PP; [|discriminate].
  destruct (env "VOTER_REGISTRATION_MSG_IDS"%string) as [ids|] eqn:I;
    [|discriminate].
  cbn [receiver].
  destruct (publish net _ _ _ _ _) as [cs [w|e]] eqn:P; [|discriminate].
  apply publish_ok in P.
  destruct (successBody asOf (numPlayers st)); [|discriminate].
  intros E. injection E as <- <- _. right. split; [reflexivity|].
  exists tsv, asOf, st, ids. rewrite P. repeat split; assumption.
Qed.

Lemma response_tells_calls_witness :
  exists tsv asOf st ids,
    replying (sampleSheet [alice; bob; carl]) O = Ok tsv
    /\ parsePhase tsv = Ok (asOf, st)
    /\ sampleEnv (Some (lit "s3")) "VOTER_REGISTRATION_MSG_IDS"%string = Some ids
    /\ length (expectedCalls
                 (coerce (sampleEnv (Some (lit "s3"))
                            "VOTER_REGISTRATION_WEBHOOK_URL"%string))
                 (split space ids) (fullMsgs st)) = 3%nat.
Proof.
  destruct (response_tells_calls _ _ _ _ _ _ scenario_alice_bob_carl)
    as [[_ [C|C]]|[_ (tsv & asOf & st & ids & N & P & I & E)]];
    [discriminate C | discriminate C |].
  exists tsv, asOf, st, ids. repeat split; try assumption.
  injection E as E. apply (f_equal (@length NetCall)) in E.
  exact (eq_sym E).
Defined.

(** X15.  When the update number j throws, the updates before it have
    been sent, it is the last one attempted, and the loop ends with its
    error: the remaining message ids are not touched. *)
Theorem publish_stops_at_failure net webhook e :
  forall ids blocks whRes sent j,
  (j < length ids)%nat ->
  (forall k, (k < j)%nat -> exists text, net (sent + k)%nat = Ok text) ->
  net (sent + j)%nat = Throw e ->
  publish net webhook ids blocks whRes sent
  = (firstn (S j) (expectedCalls webhook ids blocks), Throw e).
Proof.
  induction ids as [|msgId ids IH]; intros blocks whRes sent j L A T;
    [cbn in L; lia|].
  cbn [publish]. rewrite expectedCalls_cons.
  destruct (shiftOr blocks) as [content queue]. cbn [fst snd].
  destruct j as [|j].
  - rewrite Nat.add_0_r in T. rewrite T. reflexivity.
  - destruct (A 0%nat ltac:(lia)) as (text & E0).
    rewrite Nat.add_0_r in E0. rewrite E0.
    rewrite (IH queue (whRes ++ text ++ nl) (S sent) j).
    + reflexivity.
    + cbn [length] in L. lia.
    + intros k K. destruct (A (S k) ltac:(lia)) as (t & E).
      exists t. now rewrite <- E, Nat.add_succ_r.
    + now rewrite <- T, Nat.add_succ_r.
Qed.

Lemma publish_stops_at_failure_witness :
  publish secondUpdateFails (lit "https://hook") [lit "11"; lit "22"; lit "33"] fiveBlocks [] 1
  = ([Patch (lit "https://hook/messages/11") (lit "one");
      Patch (lit "https://hook/messages/22") (lit "two")], Throw NetworkError).
Proof.
  apply (publish_stops_at_failure secondUpdateFails (lit "https://hook") NetworkError
           [lit "11"; lit "22"; lit "33"] fiveBlocks [] 1%nat 1%nat).
  - cbn. lia.
  - intros k K. assert (k = 0%nat) as -> by lia. eexists. reflexivity.
  - reflexivity.
Defined.

Lemma toISOString_seconds t :
  Z.abs t <= 8640000000000 ->
  exists iso, toISOString (mul (Int 1000) (Int t)) = Ok iso.
Proof.
  intros B. unfold toISOString, mul, TimeClip.
  destruct (Z.ltb_spec maxTime (Z.abs (1000 * t))) as [L|L].
  - unfold maxTime in L. lia.
  - eexists. reflexivity.
Qed.

Lemma parsePhase_asOf tsv asOf st :
  parsePhase tsv = Ok (asOf, st) ->
  asOf = NaN \/ exists t, asOf = Int t /\ Z.abs t <= 8640000000000.
Proof.
  intros P. apply parsePhase_inv in P as (row1 & st0 & _ & D & _ & _).
  destruct (nth_error (split tab row1) 8) as [cell|]; [|discriminate].
  destruct (parseDateStr_seconds cell) as [E|(t & E & _ & B)];
    rewrite E in D; injection D as <-; [now left | right; now exists t].
Qed.

Lemma handler_past_gates event env net tsv :
  passesGates event env -> net O = Ok tsv -> answering net ->
  exists ids,
    env "VOTER_REGISTRATION_MSG_IDS"%string = Some ids
    /\ handler event env net
       = match parsePhase tsv with
         | Throw e =>
             ([Get (coerce (env "VOTER_REGISTRATION_TSV_URL"%string))],
              Uncaught e)
         | Ok (asOf, st) =>
             (Get (coerce (env "VOTER_REGISTRATION_TSV_URL"%string))
              :: expectedCalls
                   (coerce (env "VOTER_REGISTRATION_WEBHOOK_URL"%string))
                   (split space ids) (fullMsgs st),
              match successBody asOf (numPlayers st) with
              | Throw e => Uncaught e
              | Ok body => Response 200 body
              end)
         end.
Proof.
  intros [Q C] N A.
  assert (I : In "VOTER_REGISTRATION_MSG_IDS"%string requiredEnv)
    by (cbn; tauto).
  destruct (falsy_false _ (proj1 (checkEnv_none env requiredEnv) C _ I))
    as (ids & Hids).
  exists ids. split; [exact Hids|].
  rewrite (handler_fetches event env net Q C), N, (report_answered env net tsv A).
  destruct (parsePhase tsv) as [[asOf st]|]; [|reflexivity].
  now rewrite Hids.
Qed.

(** X16.  When the last-updated cell of the sheet does not parse, the
    messages are updated all the same, and the invocation then ends in a
    RangeError instead of a response; when it parses, the response is
    200. *)
Theorem unparsed_sheet_date_throws_late event env net tsv asOf st :
  passesGates event env -> net O = Ok tsv -> answering net ->
  parsePhase tsv = Ok (asOf, st) ->
  exists ids,
    env "VOTER_REGISTRATION_MSG_IDS"%string = Some ids
    /\ fst (handler event env net)
       = Get (coerce (env "VOTER_REGISTRATION_TSV_URL"%string))
         :: expectedCalls
              (coerce (env "VOTER_REGISTRATION_WEBHOOK_URL"%string))
              (split space ids) (fullMsgs st)
    /\ (asOf = NaN -> snd (handler event env net) = Uncaught RangeError)
    /\ (asOf <> NaN ->
        exists body, snd (handler event env net) = Response 200 body).
Proof.
  intros Ad N A P.
  destruct (handler_past_gates event env net tsv Ad N A) as (ids & I & H).
  rewrite P in H. exists ids. split; [exact I|]. rewrite H. cbn [fst snd].
  split; [reflexivity|]. split.
  - intros ->. reflexivity.
  - intros NN. destruct (parsePhase_asOf tsv asOf st P) as [->|(t & -> & B)];
      [contradiction|].
    unfold successBody. destruct (toISOString_seconds t B) as (iso & ->).
    cbn [bind]. eexists. reflexivity.
Qed.

Lemma unparsed_sheet_date_throws_late_witness :
  handler (withSecret (Some (lit "s3"))) (sampleEnv (Some (lit "s3")))
    (replying (undatedSheet []))
  = ([Get (lit "https://sheet/tsv");
      Patch (lit "https://hook/messages/11") (header NaN);
      Patch (lit "https://hook/messages/22") (lit "-");
      Patch (lit "https://hook/messages/33") (lit "-")],
     Uncaught RangeError).
Proof.
  assert (P : parsePhase (undatedSheet [])
              = Ok (NaN, {| fullMsgs := [header NaN];
                            fullMsg := header NaN;
                            numPlayers := 0 |}))
    by (vm_compute; reflexivity).
  destruct (unparsed_sheet_date_throws_late _ _ (replying (undatedSheet []))
              _ _ _ samplePasses eq_refl (answering_replying _) P)
    as (ids & I & C & T & _).
  injection I as <-.
  rewrite (surjective_pairing (handler _ _ _)), C, (T eq_refl). reflexivity.
Defined.

(** ** Dates that do not parse *)

(** X17.  When the sheet date is NaN no entrant is dropped as too old
    and every entrant is shown as expired, whatever its dates. *)
Theorem unparsed_sheet_date_expires_all st tsvLine tag validSec expireSec :
  blank tsvLine = false ->
  nth_error (split tab tsvLine) 1 = Some tag ->
  parseDateStr (nth_error (split tab tsvLine) 2) = Ok validSec ->
  parseDateStr (nth_error (split tab tsvLine) 3) = Ok expireSec ->
  processRow NaN st tsvLine
  = Ok (addLine (countPlayer st)
          (renderStatus Expired (shownName tsvLine) validSec expireSec)).
Proof.
  intros B T V E.
  rewrite (processRow_entrant NaN st tsvLine tag validSec expireSec B T V E).
  unfold tooOld, displayLine, gt, lt, sub.
  now destruct expireSec, validSec.
Qed.

Lemma unparsed_sheet_date_expires_all_witness :
  processRow NaN (startState NaN) bob
  = Ok (addLine (countPlayer (startState NaN))
          (renderStatus Expired (lit "Bob") (Int 1719792000) (Int 1722470400))).
Proof.
  exact (unparsed_sheet_date_expires_all (startState NaN) bob (lit "B")
           (Int 1719792000) (Int 1722470400) eq_refl eq_refl eq_refl eq_refl).
Defined.

(** X18.  An entrant whose end date does not parse is never dropped as
    too old and never shown as active: it is shown as upcoming when its
    start date is after the sheet date, and as expired otherwise. *)
Theorem unparsed_end_date_shown asOf st tsvLine tag validSec :
  blank tsvLine = false ->
  nth_error (split tab tsvLine) 1 = Some tag ->
  parseDateStr (nth_error (split tab tsvLine) 2) = Ok validSec ->
  parseDateStr (nth_error (split tab tsvLine) 3) = Ok NaN ->
  processRow asOf st tsvLine
  = Ok (addLine (countPlayer st)
          (renderStatus (if gt validSec asOf then Upcoming else Expired)
             (shownName tsvLine) validSec NaN)).
Proof.
  intros B T V E.
  rewrite (processRow_entrant asOf st tsvLine tag validSec NaN B T V E).
  assert (O : tooOld asOf NaN = false) by reflexivity.
  assert (G : gt NaN asOf = false) by now destruct asOf.
  rewrite O. unfold displayLine. rewrite G.
  now destruct (gt validSec asOf).
Qed.

Lemma unparsed_end_date_shown_witness :
  processRow (Int 1717200000) (startState (Int 1717200000)) openEnded
  = Ok (addLine (countPlayer (startState (Int 1717200000)))
          (renderStatus Expired (lit "Finn") (Int 1714521600) NaN)).
Proof.
  exact (unparsed_end_date_shown (Int 1717200000) (startState (Int 1717200000))
           openEnded (lit "F") (Int 1714521600) eq_refl eq_refl eq_refl eq_refl).
Defined.

(** ** The updates *)

(** X19.  What the webhook answers to the updates has no influence: two
    runs that get the same roster, and an answer to every call, make the
    same calls and end the same way. *)
Theorem update_replies_ignored event env net1 net2 :
  net1 O = net2 O -> answering net1 -> answering net2 ->
  handler event env net1 = handler event env net2.
Proof.
  intros E A1 A2. unfold handler.
  destruct (negb (strictEq _ _)); [reflexivity|].
  destruct (checkEnv env requiredEnv); [reflexivity|].
  rewrite <- E. destruct (net1 O) as [tsv|e]; [|reflexivity].
  now rewrite (report_answered env net1 tsv A1), (report_answered env net2 tsv A2).
Qed.

Lemma answering_echoing tsv : answering (echoing tsv).
Proof. intros k. now exists tsv. Qed.

Lemma update_replies_ignored_witness :
  handler (withSecret (Some (lit "s3"))) (sampleEnv (Some (lit "s3")))
    (replying (sampleSheet [alice]))
  = handler (withSecret (Some (lit "s3"))) (sampleEnv (Some (lit "s3")))
      (echoing (sampleSheet [alice])).
Proof.
  apply update_replies_ignored;
    [reflexivity | apply answering_replying | apply answering_echoing].
Defined.

Lemma split_count sep s :
  length (split sep s) = S (length (filter (fun c => (c =? sep)%N) s)).
Proof.
  induction s as [|c r IH]; cbn [split filter]; [reflexivity|].
  destruct (c =? sep)%N; cbn [length]; [now rewrite IH|].
  destruct (split_nonempty sep r) as (h & t & E). rewrite E in *.
  exact IH.
Qed.

(** X20.  The message-id variable is cut at every single space: a run
    that gets through makes one roster call and one update more than
    there are spaces in the variable, so a doubled or trailing space
    gives an update addressed to an empty id. *)
Theorem one_update_per_space event env net tsv r :
  passesGates event env -> net O = Ok tsv -> answering net ->
  parsePhase tsv = Ok r ->
  length (fst (handler event env net))
  = (2 + spaces (coerce (env "VOTER_REGISTRATION_MSG_IDS"%string)))%nat.
Proof.
  intros Ad N A P.
  destruct (handler_past_gates event env net tsv Ad N A) as (ids & I & H).
  rewrite H, P, I. destruct r as [asOf st]. cbn [fst length coerce].
  rewrite expectedCalls_length, split_count. reflexivity.
Qed.

Lemma one_update_per_space_witness :
  length (fst (handler (withSecret (Some (lit "s3")))
                 (sampleEnv (Some (lit "s3")))
                 (replying (sampleSheet [alice]))))
  = (2 + spaces (lit "11 22 33"))%nat.
Proof.
  assert (P : exists r, parsePhase (sampleSheet [alice]) = Ok r)
    by (eexists; vm_compute; reflexivity).
  destruct P as (r & P).
  exact (one_update_per_space _ _ (replying (sampleSheet [alice])) _ r
           samplePasses eq_refl (answering_replying _) P).
Defined.

Lemma processRow_nonempty asOf st tsvLine st' :
  Forall (fun b => b <> []) (fullMsgs st) /\ fullMsg st <> [] ->
  processRow asOf st tsvLine = Ok st' ->
  Forall (fun b => b <> []) (fullMsgs st') /\ fullMsg st' <> [].
Proof.
  intros [Hq Hb]. unfold processRow.
  destruct (negb (truthy (trim tsvLine))); [intros E; injection E as <-; now split|].
  destruct (receiver (nth_error (split tab tsvLine) 0)) as [mcName|]; [|discriminate].
  cbn [bind].
  destruct (receiver (nth_error (split tab tsvLine) 1)) as [tag|]; [|discriminate].
  cbn [bind].
  destruct (parseDateStr (nth_error (split tab tsvLine) 2)) as [validSec|]; [|discriminate].
  destruct (parseDateStr (nth_error (split tab tsvLine) 3)) as [expireSec|]; [|discriminate].
  cbn [bind].
  destruct (tooOld asOf expireSec); intros E; injection E as <-; [now split|].
  unfold addLine. destruct (_ <? _)%nat; cbn [fullMsgs fullMsg countPlayer]; split.
  - exact Hq.
  - intros C. apply app_eq_nil in C. tauto.
  - apply Forall_app. split; [exact Hq | now constructor].
  - rewrite displayLine_trim.
    destruct (displayLine_head asOf validSec expireSec (escapeRaw (trim mcName)))
      as (c & r & -> & _). discriminate.
Qed.

(** X21.  No update is ever sent with empty content: every block is
    non-empty, and a message id left without a block gets "-". *)
Theorem no_empty_update tsv asOf st webhook ids call :
  parsePhase tsv = Ok (asOf, st) ->
  In call (expectedCalls webhook ids (fullMsgs st)) ->
  exists url content, call = Patch url content /\ content <> [].
Proof.
  intros P I. apply parsePhase_inv in P as (row1 & st0 & _ & _ & L & ->).
  cbn [fullMsgs] in I.
  assert (NE : Forall (fun b : jsstring => b <> []) (fullMsgs st0 ++ [fullMsg st0])).
  { unfold rowLoop in L.
    assert (H : Forall (fun b : jsstring => b <> []) (fullMsgs st0)
                /\ fullMsg st0 <> []).
    { eapply (forEach_invariant
                (fun s => Forall (fun b : jsstring => b <> []) (fullMsgs s)
                          /\ fullMsg s <> [])); [| |exact L].
      - intros s a s'. apply processRow_nonempty.
      - split; [constructor | discriminate]. }
    destruct H. apply Forall_app. split; [assumption | now constructor]. }
  unfold expectedCalls in I. apply in_map_iff in I as ([i msgId] & <- & _).
  cbn [fst snd]. eexists. eexists. split; [reflexivity|].
  destruct (nth_in_or_default i (fullMsgs st0 ++ [fullMsg st0]) (lit "-")) as [H|H].
  - rewrite Forall_forall in NE. now apply NE.
  - rewrite H. discriminate.
Qed.

Lemma no_empty_update_witness :
  exists url content,
    Patch (lit "https://hook/messages/22") (lit "-") = Patch url content
    /\ content <> [].
Proof.
  assert (P : parsePhase (sampleSheet [alice])
              = Ok (Int 1717200000,
                    {| fullMsgs := [fullMsg (addLine (countPlayer (startState (Int 1717200000)))
                                      (displayLine (Int 1717200000) (Int 1714521600)
                                         (Int 1719792000) (lit "Alice")))];
                       fullMsg := fullMsg (addLine (countPlayer (startState (Int 1717200000)))
                                      (displayLine (Int 1717200000) (Int 1714521600)
                                         (Int 1719792000) (lit "Alice")));
                       numPlayers := 1 |}))
    by (vm_compute; reflexivity).
  apply (no_empty_update _ _ _ (lit "https://hook") [lit "11"; lit "22"] _ P).
  right. left. reflexivity.
Defined.

Lemma processRow_cases asOf st tsvLine st' :
  processRow asOf st tsvLine = Ok st' ->
  (fullMsgs st' = fullMsgs st /\ fullMsg st' = fullMsg st)
  \/ exists line,
       fullMsgs st' = fullMsgs (addLine st line)
       /\ fullMsg st' = fullMsg (addLine st line).
Proof.
  unfold processRow.
  destruct (negb (truthy (trim tsvLine))); [intros E; injection E as <-; now left|].
  destruct (receiver (nth_error (split tab tsvLine) 0)) as [mcName|]; [|discriminate].
  cbn [bind].
  destruct (receiver (nth_error (split tab tsvLine) 1)) as [tag|]; [|discriminate].
  cbn [bind].
  destruct (parseDateStr (nth_error (split tab tsvLine) 2)) as [validSec|]; [|discriminate].
  destruct (parseDateStr (nth_error (split tab tsvLine) 3)) as [expireSec|]; [|discriminate].
  cbn [bind].
  destruct (tooOld asOf expireSec); intros E; injection E as <-; [now left|].
  right. eexists. change (countPlayer st) with (bump 1 st).
  rewrite addLine_bump. split; reflexivity.
Qed.

(** X22.  The first block always begins with the header, whatever
    follows it and however many blocks there are. *)
Theorem header_opens_first_block tsv asOf st :
  parsePhase tsv = Ok (asOf, st) ->
  exists rest more, fullMsgs st = (header asOf ++ rest) :: more.
Proof.
  intros P. apply parsePhase_inv in P as (row1 & st0 & _ & _ & L & ->).
  cbn [fullMsgs]. unfold rowLoop in L.
  eapply (forEach_invariant
            (fun s => exists rest more,
                 fullMsgs s ++ [fullMsg s] = (header asOf ++ rest) :: more));
    [| |exact L].
  - intros s a s' (rest & more & I) R.
    apply processRow_cases in R as [[-> ->]|(line & -> & ->)];
      [now exists rest, more|].
    unfold addLine. destruct (_ <? _)%nat; cbn [fullMsgs fullMsg].
    + destruct (fullMsgs s) as [|b bs]; cbn [app] in *.
      * injection I as I _. exists (rest ++ nl ++ line), [].
        rewrite I. f_equal. symmetry. apply app_assoc.
      * injection I as I _. exists rest, (bs ++ [fullMsg s ++ nl ++ line]).
        now rewrite I.
    + rewrite <- app_assoc, app_assoc, I. cbn [app]. now eexists; eexists.
  - exists [], []. unfold startState. cbn. now rewrite app_nil_r.
Qed.

Lemma header_opens_first_block_witness :
  exists st rest more,
    parsePhase tightSheet = Ok (Int 1717200000, st)
    /\ fullMsgs st = (header (Int 1717200000) ++ rest) :: more.
Proof.
  eexists.
  assert (P : parsePhase tightSheet = Ok (Int 1717200000, _))
    by (vm_compute; reflexivity).
  destruct (header_opens_first_block _ _ _ P) as (rest & more & E).
  exists rest, more. split; [exact P | exact E].
Defined.
